(** * Key objects, crypto keys and abort controllers

    A shallow embedding of the two vendored Node.js 15.6.0 core modules
    [internal/crypto/keys] and [internal/abort_controller], with the
    properties their specification states about them.

    JavaScript values are an inductive type; an object carries the class
    whose prototype chain it has and its own properties in insertion order.
    A function that can throw returns a [result]; the key modules are
    written in an error monad.  The abort controller mutates a signal that
    is shared between the controller and its holders, so it is modelled over
    a store of signals addressed by location. *)

From Stdlib Require Import ZArith String Ascii List Bool Lia.
From Stdlib Require Strings.Byte.
From stdpp Require Import base option list gmap strings.

Set Warnings "-register-all".
Local Open Scope string_scope.

(** ** JavaScript values *)

Module Js.

Abbreviation byte := Init.Byte.byte.

(** Modelled from the spec: the constants [kKeyType*], [kKeyFormat*] and
    [kKeyEncoding*] come from the native crypto binding, which is not part
    of the sources.  The module only compares them with [===] and uses the
    encoding constants as indexes of [encodingNames], so each family is an
    enumeration. *)
Inductive KeyType := kKeyTypeSecret | kKeyTypePublic | kKeyTypePrivate.
Inductive KeyFormat := kKeyFormatPEM | kKeyFormatDER.
Inductive KeyEncoding :=
  kKeyEncodingPKCS1 | kKeyEncodingPKCS8 | kKeyEncodingSPKI | kKeyEncodingSEC1.

(** Modelled from the spec: the Opaque Key Handle ([KeyObjectHandle] of the
    native binding) "holds raw key bytes/structure".  A handle records the
    key type it was initialised with ([None] before [init]) and the key
    material it holds. *)
Record KeyObjectHandle := mkHandle {
  handle_keyType : option KeyType;
  handle_material : list byte
}.

(** Classes whose prototype chain an object can have.  [ClsObject] is a
    plain object.  [InternalCryptoKey.prototype] is linked to
    [CryptoKey.prototype] (keys.js, lines 511-512), so an
    [InternalCryptoKey] instance is the only kind of [CryptoKey] instance
    the module creates. *)
Inductive Class :=
| ClsObject
| ClsKeyObject
| ClsSecretKeyObject
| ClsPublicKeyObject
| ClsPrivateKeyObject
| ClsInternalCryptoKey.

(** The module-private symbols used as property keys. *)
Inductive Sym :=
| kHandle | kKeyObject
| kAlgorithm | kExtractable | kKeyType | kKeyUsages.

Inductive PropKey := PStr (s : string) | PSym (s : Sym).

(** ArrayBuffer and SharedArrayBuffer ([isAnyArrayBuffer]) against Buffer,
    typed arrays and DataView ([isArrayBufferView]). *)
Inductive BufferKind := AnyArrayBuffer | ArrayBufferView.

Inductive value :=
| VUndefined
| VNull
| VBool (b : bool)
| VNumber (n : Z)
| VString (s : string)
| VFunction (name : string)
| VBuffer (kind : BufferKind) (bytes : list byte)
| VArray (xs : list value)
| VHandle (h : KeyObjectHandle)
| VObject (cls : Class) (props : list (PropKey * value)).

Inductive error :=
| ERR_CRYPTO_INCOMPATIBLE_KEY_OPTIONS (name : string) (msg : string)
| ERR_CRYPTO_INVALID_KEY_OBJECT_TYPE (actual : value) (expected : string)
| ERR_INVALID_ARG_TYPE (name : string) (expected : list string) (actual : value)
| ERR_INVALID_ARG_VALUE (name : string) (actual : value)
| ERR_OUT_OF_RANGE (name : string) (range : string) (actual : value)
| ERR_OPERATION_FAILED (msg : string)
| TypeError (msg : string).

Inductive result (A : Type) :=
| Ok (a : A)
| Throw (e : error).
Arguments Ok {A} a.
Arguments Throw {A} e.

Definition bind {A B : Type} (m : result A) (k : A -> result B) : result B :=
  match m with
  | Ok a => k a
  | Throw e => Throw e
  end.

Definition succeeds {A : Type} (m : result A) : bool :=
  match m with Ok _ => true | Throw _ => false end.

#[global] Instance Sym_eq_dec : EqDecision Sym.
Proof. solve_decision. Defined.

#[global] Instance PropKey_eq_dec : EqDecision PropKey.
Proof. solve_decision. Defined.

#[global] Instance Class_eq_dec : EqDecision Class.
Proof. solve_decision. Defined.

#[global] Instance KeyFormat_eq_dec : EqDecision KeyFormat.
Proof. solve_decision. Defined.

#[global] Instance KeyEncoding_eq_dec : EqDecision KeyEncoding.
Proof. solve_decision. Defined.

Definition typeof (v : value) : string :=
  match v with
  | VUndefined => "undefined"
  | VBool _ => "boolean"
  | VNumber _ => "number"
  | VString _ => "string"
  | VFunction _ => "function"
  | VNull | VBuffer _ _ | VArray _ | VHandle _ | VObject _ _ => "object"
  end.

(** [v === undefined], [v === null], [v == null], [v === s] for a string literal [s] and
    [v === b] for a boolean literal [b]. *)
Definition is_undefined (v : value) : bool :=
  match v with VUndefined => true | _ => false end.

Definition is_null (v : value) : bool :=
  match v with VNull => true | _ => false end.

Definition is_nullish (v : value) : bool :=
  match v with VUndefined | VNull => true | _ => false end.

Definition is_string (v : value) (s : string) : bool :=
  match v with VString s' => bool_decide (s' = s) | _ => false end.

Definition is_bool (v : value) (b : bool) : bool :=
  match v with VBool b' => Bool.eqb b' b | _ => false end.

(** Conversion to a boolean, as in [!!v] and [v ? a : b]. *)
Definition truthy (v : value) : bool :=
  match v with
  | VUndefined | VNull => false
  | VBool b => b
  | VNumber n => negb (n =? 0)%Z
  | VString s => negb (bool_decide (s = ""))
  | _ => true
  end.

(** Own properties: the first binding of the key, [undefined] when there is
    none. *)
Fixpoint own (k : PropKey) (props : list (PropKey * value)) : value :=
  match props with
  | [] => VUndefined
  | (k', v) :: rest => if decide (k = k') then v else own k rest
  end.

(** [obj[k] = v]: overwrite in place, or append a new property. *)
Fixpoint set_prop (k : PropKey) (v : value) (props : list (PropKey * value))
  : list (PropKey * value) :=
  match props with
  | [] => [(k, v)]
  | (k', v') :: rest =>
      if decide (k = k') then (k, v) :: rest else (k', v') :: set_prop k v rest
  end.

(** [obj[sym]] for a symbol key: no prototype of the module defines a
    symbol-keyed property, so only own properties answer.  Reading a
    property of [undefined] or [null] throws. *)
Definition cannot_read : error := TypeError "Cannot read property of undefined or null".

Definition GetSym (v : value) (s : Sym) : result value :=
  match v with
  | VUndefined | VNull => Throw cannot_read
  | VObject _ props => Ok (own (PSym s) props)
  | _ => Ok VUndefined
  end.

Definition isKeyObjectClass (c : Class) : bool :=
  match c with
  | ClsKeyObject | ClsSecretKeyObject | ClsPublicKeyObject | ClsPrivateKeyObject => true
  | ClsObject | ClsInternalCryptoKey => false
  end.

(** [obj.name] for a string key.  The accessor [type] is inherited by
    instances of [KeyObject] (keys.js, line 105: [this[kKeyType]]) and of
    [CryptoKey] (line 450: [this[kKeyObject].type]); every other string key
    the module reads ([format], [cipher], [passphrase], [encoding], [key])
    is an own property, and [byteLength] is the length of a buffer. *)
Fixpoint Get (v : value) (name : string) {struct v} : result value :=
  match v with
  | VUndefined | VNull => Throw cannot_read
  | VBuffer _ bytes =>
      if bool_decide (name = "byteLength")
      then Ok (VNumber (Z.of_nat (length bytes)))
      else Ok VUndefined
  | VObject cls props =>
      if bool_decide (name = "type") && isKeyObjectClass cls then
        Ok (own (PSym kKeyType) props)
      else if bool_decide (name = "type") && bool_decide (cls = ClsInternalCryptoKey) then
        (fix keyObject_type (l : list (PropKey * value)) : result value :=
           match l with
           | [] => Throw cannot_read
           | (k, x) :: rest =>
               if decide (PSym kKeyObject = k) then Get x name
               else keyObject_type rest
           end) props
      else Ok (own (PStr name) props)
  | _ => Ok VUndefined
  end.

End Js.

Export Js.

Declare Scope js_scope.
Delimit Scope js_scope with js.
Notation "'let!' x ':=' m 'in' k" := (bind m (fun x => k))
  (at level 10, x name, m at level 100, k at level 200) : js_scope.
Local Open Scope js_scope.

(** ** internal/crypto/keys *)

Module Keys.

(** Modelled from the spec: the parts of the runtime the module calls and
    the sources do not contain.  [BufferFrom] is [Buffer.from(string,
    encoding)], which "coerces to a byte sequence, honoring a
    caller-specified text encoding"; [loadAsymmetricKey] is what the handle's
    [init] does with public or private key material ("constructs/loads key
    material; fails on malformed material"); [ArrayFromIterable] is
    [Array.from] on a value that is not an array.  Nothing is assumed about
    them. *)
Class Native := {
  BufferFrom : string -> value -> result (list byte);
  loadAsymmetricKey :
    KeyType -> value -> option KeyFormat -> option KeyEncoding -> value ->
    result (list byte);
  ArrayFromIterable : value -> result (list value)
}.

(** Key input contexts (keys.js, lines 63-67). *)
Inductive Ctx := kConsumePublic | kConsumePrivate | kCreatePublic | kCreatePrivate.

#[global] Instance Ctx_eq_dec : EqDecision Ctx.
Proof. solve_decision. Defined.

(** keys.js, lines 69-72. *)
Definition encodingNames (e : KeyEncoding) : string :=
  match e with
  | kKeyEncodingPKCS1 => "pkcs1"
  | kKeyEncodingPKCS8 => "pkcs8"
  | kKeyEncodingSPKI => "spki"
  | kKeyEncodingSEC1 => "sec1"
  end.

(** The result of [parseKeyFormatAndType]. *)
Record FormatAndType := mkFormatAndType {
  ft_format : KeyFormat;
  ft_type : option KeyEncoding
}.

(** The result of [parseKeyEncoding]: [{ format, type, cipher, passphrase }]. *)
Record Encoding := mkEncoding {
  enc_format : KeyFormat;
  enc_type : option KeyEncoding;
  enc_cipher : value;
  enc_passphrase : value
}.

(** The result of [prepareAsymmetricKey]: [{ format?, type?, data, cipher?,
    passphrase? }]; an absent field reads [undefined]. *)
Record PreparedKey := mkPreparedKey {
  pk_format : option KeyFormat;
  pk_type : option KeyEncoding;
  pk_data : value;
  pk_cipher : value;
  pk_passphrase : value
}.

(** The classes [new] can be applied to so that the [KeyObject] constructor
    runs: [KeyObject] itself and its three exported subclasses. *)
Inductive KeyObjectTarget :=
| NewKeyObject | NewSecretKeyObject | NewPublicKeyObject | NewPrivateKeyObject.

Definition target_class (t : KeyObjectTarget) : Class :=
  match t with
  | NewKeyObject => ClsKeyObject
  | NewSecretKeyObject => ClsSecretKeyObject
  | NewPublicKeyObject => ClsPublicKeyObject
  | NewPrivateKeyObject => ClsPrivateKeyObject
  end.

(** The snapshot [kClone] returns. *)
Record CloneData := mkCloneData {
  cd_keyObject : value;
  cd_algorithm : value;
  cd_usages : value;
  cd_extractable : value
}.

Record Clone := mkClone {
  clone_data : CloneData;
  clone_deserializeInfo : string
}.

Definition SetProp (this : value) (k : PropKey) (v : value) : value :=
  match this with
  | VObject cls props => VObject cls (set_prop k v props)
  | _ => this
  end.

Definition isAnyArrayBuffer (v : value) : bool :=
  match v with VBuffer AnyArrayBuffer _ => true | _ => false end.

Definition isArrayBufferView (v : value) : bool :=
  match v with VBuffer ArrayBufferView _ => true | _ => false end.

(** keys.js, lines 416-418: [key instanceof KeyObject]. *)
Definition isKeyObject (key : value) : bool :=
  match key with
  | VObject cls _ => isKeyObjectClass cls
  | _ => false
  end.

(** keys.js, lines 514-516: [obj != null && obj[kKeyObject] !== undefined]. *)
Definition isCryptoKey (obj : value) : bool :=
  negb (is_nullish obj) &&
  match GetSym obj kKeyObject with
  | Ok v => negb (is_undefined v)
  | Throw _ => false
  end.

(** keys.js, lines 228-232. *)
Definition isStringOrBuffer (val : value) : bool :=
  bool_decide (typeof val = "string") || isArrayBufferView val || isAnyArrayBuffer val.

(** keys.js, lines 206-209: the function [option], renamed because the
    name is the option type's. *)
Definition option_ (name : string) (objName : option string) : string :=
  match objName with
  | None => "options." +:+ name
  | Some o => "options." +:+ o +:+ "." +:+ name
  end.

(** keys.js, lines 172-180. *)
Definition parseKeyFormat (formatStr : value) (defaultFormat : option KeyFormat)
    (optionName : string) : result KeyFormat :=
  match is_undefined formatStr, defaultFormat with
  | true, Some d => Ok d
  | _, _ =>
      if is_string formatStr "pem" then Ok kKeyFormatPEM
      else if is_string formatStr "der" then Ok kKeyFormatDER
      else Throw (ERR_INVALID_ARG_VALUE optionName formatStr)
  end.

(** keys.js, lines 182-204. *)
Definition parseKeyType (typeStr : value) (required : bool) (keyType isPublic : value)
    (optionName : string) : result (option KeyEncoding) :=
  if is_undefined typeStr && negb required then Ok None
  else if is_string typeStr "pkcs1" then
    if negb (is_undefined keyType) && negb (is_string keyType "rsa") then
      Throw (ERR_CRYPTO_INCOMPATIBLE_KEY_OPTIONS "pkcs1" "can only be used for RSA keys")
    else Ok (Some kKeyEncodingPKCS1)
  else if is_string typeStr "spki" && negb (is_bool isPublic false) then
    Ok (Some kKeyEncodingSPKI)
  else if is_string typeStr "pkcs8" && negb (is_bool isPublic true) then
    Ok (Some kKeyEncodingPKCS8)
  else if is_string typeStr "sec1" && negb (is_bool isPublic true) then
    if negb (is_undefined keyType) && negb (is_string keyType "ec") then
      Throw (ERR_CRYPTO_INCOMPATIBLE_KEY_OPTIONS "sec1" "can only be used for EC keys")
    else Ok (Some kKeyEncodingSEC1)
  else Throw (ERR_INVALID_ARG_VALUE optionName typeStr).

(** keys.js, lines 211-226. *)
Definition parseKeyFormatAndType (enc keyType isPublic : value)
    (objName : option string) : result FormatAndType :=
  let! formatStr := Get enc "format" in
  let! typeStr := Get enc "type" in
  let isInput := is_undefined keyType in
  let! format := parseKeyFormat formatStr
                   (if isInput then Some kKeyFormatPEM else None)
                   (option_ "format" objName) in
  let! type := parseKeyType typeStr
                 (negb isInput || bool_decide (format = kKeyFormatDER))
                 keyType isPublic (option_ "type" objName) in
  Ok (mkFormatAndType format type).

(** keys.js, lines 313-321. *)
Definition getKeyTypes (allowKeyObject bufferOnly : bool) : list string :=
  ["ArrayBuffer"; "Buffer"; "TypedArray"; "DataView"]
  ++ (if negb bufferOnly then ["string"] else [])
  ++ (if negb bufferOnly && allowKeyObject then ["KeyObject"; "CryptoKey"] else []).

Section WithNative.
Context `{Native}.

(** Modelled from the spec: [getArrayBufferOrView] of internal/crypto/util
    is not part of the sources.  It is the coercion "to a byte sequence":
    a buffer is returned as it is, a string is encoded with the given text
    encoding, anything else is an invalid argument type. *)
Definition getArrayBufferOrView (buffer : value) (name : string) (encoding : value)
  : result value :=
  match buffer with
  | VBuffer _ _ => Ok buffer
  | VString s =>
      let! bytes := BufferFrom s encoding in
      Ok (VBuffer ArrayBufferView bytes)
  | _ =>
      Throw (ERR_INVALID_ARG_TYPE name
               ["string"; "ArrayBuffer"; "Buffer"; "TypedArray"; "DataView"] buffer)
  end.

(** keys.js, lines 234-276. *)
Definition parseKeyEncoding (enc keyType isPublic : value) (objName : option string)
  : result Encoding :=
  if is_null enc || negb (bool_decide (typeof enc = "object"))
  then Throw (ERR_INVALID_ARG_TYPE "options" ["object"] enc)
  else
    let isInput := is_undefined keyType in
    let! ft := parseKeyFormatAndType enc keyType isPublic objName in
    let format := ft_format ft in
    let type := ft_type ft in
    let! cpe :=
      if negb (is_bool isPublic true) then
        let! cipher := Get enc "cipher" in
        let! passphrase := Get enc "passphrase" in
        let! encoding := Get enc "encoding" in
        let! _ :=
          if negb isInput then
            if negb (is_nullish cipher) then
              if negb (bool_decide (typeof cipher = "string")) then
                Throw (ERR_INVALID_ARG_VALUE (option_ "cipher" objName) cipher)
              else
                match type with
                | Some t =>
                    if bool_decide (format = kKeyFormatDER) &&
                       (bool_decide (t = kKeyEncodingPKCS1) ||
                        bool_decide (t = kKeyEncodingSEC1))
                    then Throw (ERR_CRYPTO_INCOMPATIBLE_KEY_OPTIONS
                                  (encodingNames t) "does not support encryption")
                    else Ok tt
                | None => Ok tt
                end
            else if negb (is_undefined passphrase) then
              Throw (ERR_INVALID_ARG_VALUE (option_ "cipher" objName) cipher)
            else Ok tt
          else Ok tt in
        if (isInput && negb (is_undefined passphrase) &&
            negb (isStringOrBuffer passphrase)) ||
           (negb isInput && negb (is_nullish cipher) &&
            negb (isStringOrBuffer passphrase))
        then Throw (ERR_INVALID_ARG_VALUE (option_ "passphrase" objName) passphrase)
        else Ok (cipher, passphrase, encoding)
      else Ok (VUndefined, VUndefined, VUndefined) in
    let '(cipher, passphrase, encoding) := cpe in
    let! passphrase :=
      if negb (is_undefined passphrase)
      then getArrayBufferOrView passphrase "key.passphrase" encoding
      else Ok passphrase in
    Ok (mkEncoding format type cipher passphrase).

(** keys.js, lines 281-283: [keyType ? true : undefined]. *)
Definition parsePublicKeyEncoding (enc keyType : value) (objName : option string)
  : result Encoding :=
  parseKeyEncoding enc keyType (if truthy keyType then VBool true else VUndefined) objName.

(** keys.js, lines 288-290. *)
Definition parsePrivateKeyEncoding (enc keyType : value) (objName : option string)
  : result Encoding :=
  parseKeyEncoding enc keyType (VBool false) objName.

(** keys.js, lines 292-311. *)
Definition getKeyObjectHandle (key : value) (ctx : Ctx) : result value :=
  if bool_decide (ctx = kCreatePrivate) then
    Throw (ERR_INVALID_ARG_TYPE "key"
             ["string"; "ArrayBuffer"; "Buffer"; "TypedArray"; "DataView"] key)
  else
    let! type := Get key "type" in
    let! _ :=
      if negb (is_string type "private") then
        if bool_decide (ctx = kConsumePrivate) || bool_decide (ctx = kCreatePublic)
        then Throw (ERR_CRYPTO_INVALID_KEY_OBJECT_TYPE type "private")
        else if negb (is_string type "public")
        then Throw (ERR_CRYPTO_INVALID_KEY_OBJECT_TYPE type "private or public")
        else Ok tt
      else Ok tt in
    GetSym key kHandle.

Definition only_data (data : value) : PreparedKey :=
  mkPreparedKey None None data VUndefined VUndefined.

(** keys.js, lines 323-359. *)
Definition prepareAsymmetricKey (key : value) (ctx : Ctx) : result PreparedKey :=
  if isKeyObject key then
    let! data := getKeyObjectHandle key ctx in
    Ok (only_data data)
  else if isCryptoKey key then
    let! keyObject := GetSym key kKeyObject in
    let! data := getKeyObjectHandle keyObject ctx in
    Ok (only_data data)
  else if isStringOrBuffer key then
    let! data := getArrayBufferOrView key "key" VUndefined in
    Ok (mkPreparedKey (Some kKeyFormatPEM) None data VUndefined VUndefined)
  else if bool_decide (typeof key = "object") then
    let! data := Get key "key" in
    let! encoding := Get key "encoding" in
    if isKeyObject data then
      let! h := getKeyObjectHandle data ctx in
      Ok (only_data h)
    else if isCryptoKey data then
      let! keyObject := GetSym data kKeyObject in
      let! h := getKeyObjectHandle keyObject ctx in
      Ok (only_data h)
    else if negb (isStringOrBuffer data) then
      Throw (ERR_INVALID_ARG_TYPE "key.key"
               (getKeyTypes (negb (bool_decide (ctx = kCreatePrivate))) false) data)
    else
      let isPublic :=
        if bool_decide (ctx = kConsumePrivate) || bool_decide (ctx = kCreatePrivate)
        then VBool false else VUndefined in
      let! bytes := getArrayBufferOrView data "key" encoding in
      let! e := parseKeyEncoding key VUndefined isPublic None in
      Ok (mkPreparedKey (Some (enc_format e)) (enc_type e) bytes
            (enc_cipher e) (enc_passphrase e))
  else
    Throw (ERR_INVALID_ARG_TYPE "key"
             (getKeyTypes (negb (bool_decide (ctx = kCreatePrivate))) false) key).

(** keys.js, lines 361-367. *)
Definition preparePrivateKey (key : value) : result PreparedKey :=
  prepareAsymmetricKey key kConsumePrivate.

Definition preparePublicOrPrivateKey (key : value) : result PreparedKey :=
  prepareAsymmetricKey key kConsumePublic.

(** keys.js, lines 369-390. *)
Definition prepareSecretKey (key encoding : value) (bufferOnly : bool) : result value :=
  let secret_only (k : value) (found : result value) : result value :=
    let! type := Get k "type" in
    if negb (is_string type "secret")
    then Throw (ERR_CRYPTO_INVALID_KEY_OBJECT_TYPE type "secret")
    else found in
  if negb bufferOnly && isKeyObject key then
    secret_only key (GetSym key kHandle)
  else if negb bufferOnly && isCryptoKey key then
    secret_only key (let! keyObject := GetSym key kKeyObject in GetSym keyObject kHandle)
  else if negb (bool_decide (typeof key = "string")) &&
          negb (isArrayBufferView key) && negb (isAnyArrayBuffer key) then
    Throw (ERR_INVALID_ARG_TYPE "key" (getKeyTypes (negb bufferOnly) bufferOnly) key)
  else getArrayBufferOrView key "key" encoding.

(** Modelled from the spec: the handle's methods.  [new KeyObjectHandle()]
    holds nothing; [init(category, data, format?, type?, passphrase?)]
    "constructs/loads key material" of the requested category and "fails
    on malformed material"; [export()] "for secret keys takes no arguments
    and returns raw bytes". *)
Definition new_KeyObjectHandle : KeyObjectHandle := mkHandle None [].

Definition handle_init (h : KeyObjectHandle) (category : KeyType) (data : value)
    (format : option KeyFormat) (type : option KeyEncoding) (passphrase : value)
  : result KeyObjectHandle :=
  match category with
  | kKeyTypeSecret =>
      match data with
      | VBuffer _ bytes => Ok (mkHandle (Some kKeyTypeSecret) bytes)
      | _ => Throw (TypeError "Invalid key material")
      end
  | _ =>
      let! material := loadAsymmetricKey category data format type passphrase in
      Ok (mkHandle (Some category) material)
  end.

Definition handle_export_secret (handle : value) : result value :=
  match handle with
  | VHandle h => Ok (VBuffer ArrayBufferView (handle_material h))
  | VUndefined | VNull => Throw cannot_read
  | _ => Throw (TypeError "export is not a function")
  end.

(** Modelled from the spec: [NativeKeyObject] is the base class made by the
    native [createNativeKeyObjectClass]; the instance it makes for
    [super(handle)] has the prototype chain of the class under construction,
    keeps the handle natively and has no JavaScript property of its own. *)
Definition NativeKeyObject (target : KeyObjectTarget) (handle : value) : value :=
  VObject (target_class target) [].

Definition instanceof_KeyObjectHandle (v : value) : bool :=
  match v with VHandle _ => true | _ => false end.

(** keys.js, lines 86-103: the constructor of [KeyObject], run for [new] on
    the class [target]. *)
Definition KeyObject_constructor (target : KeyObjectTarget) (type handle : value)
  : result value :=
  if negb (is_string type "secret") && negb (is_string type "public") &&
     negb (is_string type "private")
  then Throw (ERR_INVALID_ARG_VALUE "type" type)
  else if negb (bool_decide (typeof handle = "object")) ||
          negb (instanceof_KeyObjectHandle handle)
  then Throw (ERR_INVALID_ARG_TYPE "handle" ["object"] handle)
  else
    let this := NativeKeyObject target handle in
    let this := SetProp this (PSym kKeyType) type in
    let this := SetProp this (PSym kHandle) handle in
    Ok this.

(** keys.js, lines 105-107. *)
Definition KeyObject_type (this : value) : result value := GetSym this kKeyType.

(** keys.js, lines 109-113. *)
Definition KeyObject_from (key : value) : result value :=
  if negb (isCryptoKey key)
  then Throw (ERR_INVALID_ARG_TYPE "key" ["CryptoKey"] key)
  else GetSym key kKeyObject.

(** keys.js, lines 116-128, 139-142 and 153-156. *)
Definition SecretKeyObject_constructor (handle : value) : result value :=
  KeyObject_constructor NewSecretKeyObject (VString "secret") handle.

Definition SecretKeyObject_export (this : value) : result value :=
  let! handle := GetSym this kHandle in
  handle_export_secret handle.

Definition PublicKeyObject_constructor (handle : value) : result value :=
  KeyObject_constructor NewPublicKeyObject (VString "public") handle.

Definition PrivateKeyObject_constructor (handle : value) : result value :=
  KeyObject_constructor NewPrivateKeyObject (VString "private") handle.

(** keys.js, lines 392-399. *)
Definition createSecretKey (key encoding : value) : result value :=
  let! key := prepareSecretKey key encoding true in
  let! byteLength := Get key "byteLength" in
  match byteLength with
  | VNumber 0 => Throw (ERR_OUT_OF_RANGE "key.byteLength" "> 0" byteLength)
  | _ =>
      let handle := new_KeyObjectHandle in
      let! handle := handle_init handle kKeyTypeSecret key None None VUndefined in
      SecretKeyObject_constructor (VHandle handle)
  end.

(** keys.js, lines 401-406. *)
Definition createPublicKey (key : value) : result value :=
  let! p := prepareAsymmetricKey key kCreatePublic in
  let handle := new_KeyObjectHandle in
  let! handle := handle_init handle kKeyTypePublic (pk_data p) (pk_format p)
                   (pk_type p) VUndefined in
  PublicKeyObject_constructor (VHandle handle).

(** keys.js, lines 408-414. *)
Definition createPrivateKey (key : value) : result value :=
  let! p := prepareAsymmetricKey key kCreatePrivate in
  let handle := new_KeyObjectHandle in
  let! handle := handle_init handle kKeyTypePrivate (pk_data p) (pk_format p)
                   (pk_type p) (pk_passphrase p) in
  PrivateKeyObject_constructor (VHandle handle).


(** keys.js, lines 494-509: [super()] makes an object without properties,
    then the four symbol properties are assigned in this order. *)
Definition InternalCryptoKey_constructor
    (keyObject algorithm keyUsages extractable : value) : value :=
  let this := VObject ClsInternalCryptoKey [] in
  let this := SetProp this (PSym kKeyObject) keyObject in
  let this := SetProp this (PSym kAlgorithm) algorithm in
  let this := SetProp this (PSym kExtractable) extractable in
  let this := SetProp this (PSym kKeyUsages) keyUsages in
  this.

(** Modelled from the spec: the primordial [ArrayFrom] gives the "order
    preserving copy returned on read": a fresh array with the elements of
    an array, in order.  Any other argument is left to the runtime. *)
Definition ArrayFrom (v : value) : result value :=
  match v with
  | VArray xs => Ok (VArray xs)
  | _ => let! xs := ArrayFromIterable v in Ok (VArray xs)
  end.

(** keys.js, lines 450-464: the accessors of [CryptoKey.prototype]. *)
Definition CryptoKey_type (this : value) : result value :=
  let! keyObject := GetSym this kKeyObject in
  Get keyObject "type".

Definition CryptoKey_extractable (this : value) : result value :=
  GetSym this kExtractable.

Definition CryptoKey_algorithm (this : value) : result value :=
  GetSym this kAlgorithm.

Definition CryptoKey_usages (this : value) : result value :=
  let! usages := GetSym this kKeyUsages in
  ArrayFrom usages.

(** keys.js, lines 466-481. *)
Definition kClone (this : value) : result Clone :=
  let! keyObject := GetSym this kKeyObject in
  let! algorithm := CryptoKey_algorithm this in
  let! extractable := CryptoKey_extractable this in
  let! usages := CryptoKey_usages this in
  Ok (mkClone (mkCloneData keyObject algorithm usages extractable)
        "internal/crypto/keys:InternalCryptoKey").

(** keys.js, lines 483-488. *)
Definition kDeserialize (this : value) (data : CloneData) : value :=
  let this := SetProp this (PSym kKeyObject) (cd_keyObject data) in
  let this := SetProp this (PSym kAlgorithm) (cd_algorithm data) in
  let this := SetProp this (PSym kKeyUsages) (cd_usages data) in
  let this := SetProp this (PSym kExtractable) (cd_extractable data) in
  this.

(** Modelled from the spec: the receiving side of the clone protocol
    (internal/worker/js_transferable, not part of the sources)
    "reconstructs an equivalent Crypto Key from that snapshot": it
    instantiates the class named by [deserializeInfo] without arguments and
    calls its [kDeserialize] on the snapshot's data. *)
Definition receive (c : Clone) : value :=
  kDeserialize
    (InternalCryptoKey_constructor VUndefined VUndefined VUndefined VUndefined)
    (clone_data c).

End WithNative.

(** *** Predicates of the statements and concrete inputs *)

(** A runtime on which the module can be evaluated: strings are encoded
    byte for byte whatever the encoding, asymmetric key material is taken
    as it comes from a buffer or from another handle, and only arrays can
    be turned into arrays. *)
Definition sample_native : Native := {|
  BufferFrom s _ := Ok (list_byte_of_string s);
  loadAsymmetricKey _ data _ _ _ :=
    match data with
    | VBuffer _ bytes => Ok bytes
    | VHandle h => Ok (handle_material h)
    | _ => Throw (TypeError "Invalid key material")
    end;
  ArrayFromIterable _ := Throw (TypeError "object is not iterable")
|}.

(** The category strings and the key types of the handle. *)
Definition category_name (t : KeyType) : string :=
  match t with
  | kKeyTypeSecret => "secret"
  | kKeyTypePublic => "public"
  | kKeyTypePrivate => "private"
  end.

Definition valid_category (type : value) : bool :=
  is_string type "secret" || is_string type "public" || is_string type "private".

(** The category of a Key Object is the name of the key type of the handle
    it wraps. *)
Definition category_matches_handle (o : value) : bool :=
  match Get o "type", GetSym o kHandle with
  | Ok (VString t), Ok (VHandle h) =>
      match handle_keyType h with
      | Some kt => bool_decide (t = category_name kt)
      | None => false
      end
  | _, _ => false
  end.

(** The error of [getKeyObjectHandle] in the create-private-key context:
    only raw key material is listed as acceptable. *)
Definition raw_material_only (actual : value) : error :=
  ERR_INVALID_ARG_TYPE "key"
    ["string"; "ArrayBuffer"; "Buffer"; "TypedArray"; "DataView"] actual.

(** A secret Key Object as [createSecretKey] makes it, and a Crypto Key
    around it. *)
Definition secret_handle : KeyObjectHandle :=
  mkHandle (Some kKeyTypeSecret) [Init.Byte.x01; Init.Byte.x02].

Definition sample_secret_key : value :=
  VObject ClsSecretKeyObject
    [(PSym kKeyType, VString "secret"); (PSym kHandle, VHandle secret_handle)].

Definition sample_algorithm : value :=
  VObject ClsObject [(PStr "name", VString "HMAC")].

Definition sample_usages : value := VArray [VString "sign"; VString "verify"].

Definition sample_crypto_key : value :=
  InternalCryptoKey_constructor sample_secret_key sample_algorithm sample_usages
    (VBool true).

Definition sample_clone : Clone :=
  mkClone (mkCloneData sample_secret_key sample_algorithm sample_usages (VBool true))
    "internal/crypto/keys:InternalCryptoKey".

(** A plain object on which the property [kKeyObject] was set, as anyone
    can do who read the symbol off a Crypto Key with
    [Object.getOwnPropertySymbols], and an object made by
    [Object.create(KeyObject.prototype)]. *)
Definition forged_crypto_key : value :=
  VObject ClsObject [(PSym kKeyObject, VNumber 1)].

Definition bare_key_object : value := VObject ClsKeyObject [].





(** [{ format: 'der', type: 'sec1', cipher: 42 }] and
    [{ format: 'der', type: 'sec1', cipher: 'aes-256-cbc' }]. *)
Definition der_sec1 (cipher : value) : value :=
  VObject ClsObject
    [(PStr "format", VString "der"); (PStr "type", VString "sec1");
     (PStr "cipher", cipher)].

(** [{ key: <buffer>, format: 'der', type: 'spki' }], as given to an
    operation that takes a public or a private key. *)
Definition der_spki_key : value :=
  VObject ClsObject
    [(PStr "key", VBuffer ArrayBufferView [Init.Byte.x30]);
     (PStr "format", VString "der"); (PStr "type", VString "spki")].

End Keys.

(** ** internal/abort_controller *)

Module AbortController.

(** Objects live in a store: a controller and every holder of its [signal]
    refer to the same signal object, which [abort] mutates. *)
Abbreviation loc := positive.

Inductive Proto := EventTargetPrototype | AbortSignalPrototype.

(** Modelled from the spec: [Event] and [EventTarget] belong to
    internal/event_target, which is not part of the sources; the spec calls
    it "an event-dispatch primitive the abort logic consumes".  An event is
    its type and whether it was created with [kTrustEvent]; an event target
    carries its prototype, the property [kAborted] and the events handed to
    its [dispatchEvent], oldest first. *)
Record Event := mkEvent {
  ev_type : string;
  ev_trusted : bool
}.

Record EventTarget := mkEventTarget {
  et_proto : Proto;
  et_kAborted : value;
  et_dispatched : list Event
}.

Abbreviation heap := (gmap loc EventTarget).

Definition new_EventTarget : EventTarget :=
  mkEventTarget EventTargetPrototype VUndefined [].

Definition ObjectSetPrototypeOf (o : EventTarget) (p : Proto) : EventTarget :=
  mkEventTarget p (et_kAborted o) (et_dispatched o).

Definition set_kAborted (o : EventTarget) (v : value) : EventTarget :=
  mkEventTarget (et_proto o) v (et_dispatched o).

Definition record_event (ev : Event) (o : EventTarget) : EventTarget :=
  mkEventTarget (et_proto o) (et_kAborted o) (et_dispatched o ++ [ev]).

(** Modelled from the spec: [dispatchEvent] of the event target, seen from
    the abort logic, takes the event; the object keeps the events it was
    handed. *)
Definition dispatchEvent (target : loc) (ev : Event) (h : heap) : heap :=
  alter (record_event ev) target h.

(** part_000, lines 40-44: the constructor of [AbortSignal]. *)
Definition AbortSignal_constructor (args : list value) : result loc :=
  Throw (TypeError "Illegal constructor").

(** part_000, line 46: [get aborted() { return !!this[kAborted]; }]. *)
Definition aborted (this : EventTarget) : bool := truthy (et_kAborted this).

(** part_000, lines 68-73. *)
Definition createAbortSignal (h : heap) : loc * heap :=
  let l := fresh (dom h) in
  let signal := new_EventTarget in
  let signal := ObjectSetPrototypeOf signal AbortSignalPrototype in
  let signal := set_kAborted signal (VBool false) in
  (l, <[l := signal]> h).

(** part_000, lines 75-82.  A location without an object cannot be reached
    from JavaScript; the store is then left as it is. *)
Definition abortSignal (signal : loc) (h : heap) : heap :=
  match h !! signal with
  | None => h
  | Some o =>
      if truthy (et_kAborted o) then h
      else
        let h := <[signal := set_kAborted o (VBool true)]> h in
        let event := mkEvent "abort" true in
        dispatchEvent signal event h
  end.

(** part_000, lines 88-101. *)
Record Controller := mkController { kSignal : loc }.

Definition AbortController_constructor (h : heap) : Controller * heap :=
  let '(signal, h) := createAbortSignal h in
  (mkController signal, h).

Definition signal (this : Controller) : loc := kSignal this.

Definition abort (this : Controller) (h : heap) : heap :=
  abortSignal (kSignal this) h.

(** What a holder of the signal observes. *)
Definition signal_aborted (h : heap) (s : loc) : option bool :=
  aborted <$> h !! s.

Definition signal_events (h : heap) (s : loc) : list Event :=
  match h !! s with
  | Some o => et_dispatched o
  | None => []
  end.

Definition instanceof_AbortSignal (h : heap) (s : loc) : bool :=
  match h !! s with
  | Some o => match et_proto o with AbortSignalPrototype => true | _ => false end
  | None => false
  end.

(** The calls a program can make on the exported classes, and a program as
    a sequence of calls.  [new AbortSignal()] is left out: it throws and
    changes nothing. *)
Inductive Call :=
| NewAbortController
| CallAbort (c : Controller).

Definition run_call (h : heap) (call : Call) : heap :=
  match call with
  | NewAbortController => (AbortController_constructor h).2
  | CallAbort c => abort c h
  end.

Definition run (calls : list Call) (h : heap) : heap :=
  fold_left run_call calls h.

Definition abort_event : Event := mkEvent "abort" true.

(** What [abortSignal] does to the object it finds. *)
Definition aborted_object (o : EventTarget) : EventTarget :=
  if aborted o then o
  else mkEventTarget (et_proto o) (VBool true) (et_dispatched o ++ [abort_event]).

(** The state of a signal: not aborted and nothing dispatched, or aborted
    with exactly one trusted [abort] event dispatched. *)
Definition signal_consistent (o : EventTarget) : Prop :=
  et_proto o = AbortSignalPrototype
  ∧ (et_kAborted o = VBool false ∧ et_dispatched o = []
     ∨ et_kAborted o = VBool true ∧ et_dispatched o = [abort_event]).

(** What a program can do to the store: use the two exported classes,
    construct an event target of its own, and give an object it holds
    another prototype with [Object.setPrototypeOf], the primitive
    [createAbortSignal] itself uses (part_000, line 70).  If
    [new AbortSignal(...)] returned an object it would be in the store. *)
Inductive Step :=
| StepNewAbortController
| StepNewAbortSignal (args : list value)
| StepNewEventTarget
| StepAbort (c : Controller)
| StepSetPrototypeOf (target : loc) (p : Proto).

Definition step (h : heap) (s : Step) : heap :=
  match s with
  | StepNewAbortController => (AbortController_constructor h).2
  | StepNewAbortSignal args =>
      match AbortSignal_constructor args with
      | Ok l => <[l := ObjectSetPrototypeOf new_EventTarget AbortSignalPrototype]> h
      | Throw _ => h
      end
  | StepNewEventTarget => <[fresh (dom h) := new_EventTarget]> h
  | StepAbort c => abort c h
  | StepSetPrototypeOf target p => alter (λ o, ObjectSetPrototypeOf o p) target h
  end.

Definition exec (steps : list Step) (h : heap) : heap :=
  fold_left step steps h.

(** The steps that only use what the module exports and the event target
    class. *)
Definition uses_classes_only (s : Step) : bool :=
  match s with
  | StepSetPrototypeOf _ _ => false
  | _ => true
  end.

(** [Object.setPrototypeOf(new EventTarget(), AbortSignal.prototype)]. *)
Definition reprototyped_event_target : list Step :=
  [StepNewEventTarget; StepSetPrototypeOf 1%positive AbortSignalPrototype].

(** A store with an aborted signal and one that is not. *)
Definition two_signals : heap :=
  <[2%positive := mkEventTarget AbortSignalPrototype (VBool false) []]>
    (<[1%positive := mkEventTarget AbortSignalPrototype (VBool true)
                       [mkEvent "abort" true]]> ∅).

End AbortController.

(** ** Properties of the abort controller *)

Module AbortProps.
Import AbortController.

Lemma lookup_createAbortSignal (h : heap) :
  (createAbortSignal h).2 !! (createAbortSignal h).1
  = Some (mkEventTarget AbortSignalPrototype (VBool false) []).
Proof. unfold createAbortSignal; simpl. apply lookup_insert_eq. Qed.

Lemma createAbortSignal_fresh (h : heap) : h !! (createAbortSignal h).1 = None.
Proof.
  unfold createAbortSignal; simpl.
  apply not_elem_of_dom, is_fresh.
Qed.

Lemma createAbortSignal_other (h : heap) (l : loc) :
  l ≠ (createAbortSignal h).1 → (createAbortSignal h).2 !! l = h !! l.
Proof. intros Hne. unfold createAbortSignal; simpl. by rewrite lookup_insert_ne. Qed.

(** An aborted signal makes [abortSignal] return at its first line. *)
Lemma abortSignal_aborted (s : loc) (h : heap) :
  signal_aborted h s = Some true → abortSignal s h = h.
Proof.
  unfold signal_aborted, abortSignal, aborted.
  destruct (h !! s) as [o|]; simpl; [|done].
  intros [= ->]. done.
Qed.

(** The first abort: the flag is set, one trusted [abort] event is handed
    to [dispatchEvent], and no other object changes. *)
Lemma abortSignal_first (s : loc) (h : heap) (o : EventTarget) :
  h !! s = Some o → aborted o = false →
  abortSignal s h
  = <[s := mkEventTarget (et_proto o) (VBool true)
             (et_dispatched o ++ [mkEvent "abort" true])]> h.
Proof.
  intros Hs Ha. unfold abortSignal. rewrite Hs.
  unfold aborted in Ha. rewrite Ha. unfold dispatchEvent.
  apply map_eq. intros l. destruct (decide (l = s)) as [->|Hne].
  - by rewrite lookup_alter_eq, !lookup_insert_eq.
  - by rewrite lookup_alter_ne, !lookup_insert_ne.
Qed.

Lemma abortSignal_idempotent (s : loc) (h : heap) :
  abortSignal s (abortSignal s h) = abortSignal s h.
Proof.
  destruct (h !! s) as [o|] eqn:Hs.
  - destruct (aborted o) eqn:Ha.
    + assert (abortSignal s h = h) as Hid.
      { apply abortSignal_aborted. unfold signal_aborted.
        rewrite Hs; simpl. by rewrite Ha. }
      by rewrite !Hid.
    + rewrite (abortSignal_first s h o Hs Ha).
      apply abortSignal_aborted.
      unfold signal_aborted. by rewrite lookup_insert_eq.
  - assert (abortSignal s h = h) as Hid by (unfold abortSignal; by rewrite Hs).
    by rewrite !Hid.
Qed.

(** C9.  Aborting is idempotent.  For a controller whose signal is not yet
    aborted, the first [abort()] sets the signal's [aborted] flag to [true]
    and dispatches exactly one event, of type [abort], leaving every other
    object as it was; in any later state of the store in which the signal
    is aborted, in particular after any number of further [abort()] calls,
    [abort()] changes nothing and dispatches nothing. *)
Theorem abort_idempotent (c : Controller) (h : heap) (o : EventTarget) :
  h !! signal c = Some o → aborted o = false →
  let h1 := abort c h in
  signal_aborted h1 (signal c) = Some true
  ∧ signal_events h1 (signal c) = (signal_events h (signal c) ++ [mkEvent "abort" true])%list
  ∧ (∀ l, l ≠ signal c → h1 !! l = h !! l)
  ∧ (∀ n, Nat.iter n (abort c) h1 = h1)
  ∧ (∀ h', signal_aborted h' (signal c) = Some true →
           abort c h' = h' ∧ signal_events (abort c h') (signal c) = signal_events h' (signal c)).
Proof.
  intros Hs Ha h1. subst h1. unfold abort, signal in *.
  rewrite (abortSignal_first _ _ _ Hs Ha).
  repeat split.
  - unfold signal_aborted. by rewrite lookup_insert_eq.
  - unfold signal_events. by rewrite lookup_insert_eq, Hs.
  - intros l Hne. by rewrite lookup_insert_ne.
  - induction n as [|n IH]; simpl; [done|].
    rewrite IH. apply abortSignal_aborted.
    unfold signal_aborted. by rewrite lookup_insert_eq.
  - by apply abortSignal_aborted.
  - by rewrite abortSignal_aborted.
Qed.

(** The first two calls on a controller that was just constructed. *)
Lemma abort_fresh_controller (h : heap) :
  let c := (AbortController_constructor h).1 in
  let h0 := (AbortController_constructor h).2 in
  signal_events h0 (signal c) = []
  ∧ signal_aborted (abort c h0) (signal c) = Some true
  ∧ signal_events (abort c h0) (signal c) = [mkEvent "abort" true]
  ∧ abort c (abort c h0) = abort c h0.
Proof.
  unfold AbortController_constructor.
  pose proof (lookup_createAbortSignal h) as Hl.
  destruct (createAbortSignal h) as [s h0]. cbn [fst snd] in *.
  unfold abort, signal; cbn [kSignal].
  rewrite abortSignal_idempotent.
  rewrite (abortSignal_first s h0 _ Hl eq_refl).
  unfold signal_events, signal_aborted.
  rewrite Hl, lookup_insert_eq. done.
Qed.

Lemma abort_idempotent_witness :
  let c := mkController 2%positive in
  let h1 := abort c two_signals in
  signal_aborted h1 (signal c) = Some true
  ∧ signal_events h1 (signal c) = (signal_events two_signals (signal c) ++ [mkEvent "abort" true])%list
  ∧ (∀ l, l ≠ signal c → h1 !! l = two_signals !! l)
  ∧ (∀ n, Nat.iter n (abort c) h1 = h1)
  ∧ (∀ h', signal_aborted h' (signal c) = Some true →
           abort c h' = h' ∧ signal_events (abort c h') (signal c) = signal_events h' (signal c)).
Proof.
  apply (abort_idempotent (mkController 2%positive) two_signals
           (mkEventTarget AbortSignalPrototype (VBool false) [])).
  - reflexivity.
  - reflexivity.
Defined.

Lemma instanceof_abortSignal (s l : loc) (h : heap) :
  instanceof_AbortSignal (abortSignal s h) l = instanceof_AbortSignal h l.
Proof.
  destruct (h !! s) as [o|] eqn:Hs.
  - destruct (aborted o) eqn:Ha.
    + rewrite abortSignal_aborted; [done|].
      unfold signal_aborted. rewrite Hs; simpl. by rewrite Ha.
    + rewrite (abortSignal_first s h o Hs Ha). unfold instanceof_AbortSignal.
      destruct (decide (l = s)) as [->|Hne].
      * by rewrite lookup_insert_eq, Hs.
      * by rewrite lookup_insert_ne.
  - unfold abortSignal. by rewrite Hs.
Qed.

(** A step that uses the classes only makes an [AbortSignal] instance in
    one way: as the signal of the controller it constructs. *)
Lemma step_instance (h : heap) (s : Step) (l : loc) :
  uses_classes_only s = true →
  instanceof_AbortSignal (step h s) l = true →
  instanceof_AbortSignal h l = true
  ∨ s = StepNewAbortController ∧ l = signal (AbortController_constructor h).1.
Proof.
  intros Hs. destruct s as [|args| |c|target p]; simpl in *; try discriminate.
  - unfold AbortController_constructor, createAbortSignal, signal; simpl.
    destruct (decide (l = fresh (dom h))) as [->|Hne]; [by right|].
    unfold instanceof_AbortSignal. rewrite lookup_insert_ne by done. by left.
  - by left.
  - unfold instanceof_AbortSignal.
    destruct (decide (l = fresh (dom h))) as [->|Hne].
    + by rewrite lookup_insert_eq.
    + rewrite lookup_insert_ne by done. by left.
  - unfold abort. rewrite instanceof_abortSignal. by left.
Qed.

Lemma exec_instances (steps : list Step) (h : heap) (l : loc) :
  forallb uses_classes_only steps = true →
  instanceof_AbortSignal (exec steps h) l = true →
  instanceof_AbortSignal h l = true
  ∨ ∃ before after,
      steps = (before ++ StepNewAbortController :: after)%list
      ∧ l = signal (AbortController_constructor (exec before h)).1.
Proof.
  revert h. induction steps as [|s rest IH]; intros h Hall Hl; simpl in *.
  - by left.
  - apply andb_true_iff in Hall as [Hs Hrest].
    destruct (IH (step h s) Hrest Hl) as [Hin|(before & after & -> & ->)].
    + destruct (step_instance h s l Hs Hin) as [?|[-> ->]]; [by left|].
      right. by exists [], rest.
    + right. by exists (s :: before), after.
Qed.

(** C10 (as amended).  [new AbortSignal()] throws a [TypeError] whatever
    its arguments and leaves the store as it is.  The classes make
    [AbortSignal] instances in one way only: in every store a program
    reaches by constructing controllers and event targets, attempting
    [new AbortSignal()] and calling [abort], each instance that was not
    there at the start is the signal of a controller the program
    constructed.  The signal of a freshly constructed controller is a new
    instance that reports [aborted === false], and constructing the
    controller changes no object that existed before. *)
Theorem AbortSignal_illegal_constructor (args : list value) (h : heap) (steps : list Step) :
  AbortSignal_constructor args = Throw (TypeError "Illegal constructor")
  ∧ succeeds (AbortSignal_constructor args) = false
  ∧ step h (StepNewAbortSignal args) = h
  ∧ (∀ l,
       forallb uses_classes_only steps = true →
       instanceof_AbortSignal (exec steps h) l = true →
       instanceof_AbortSignal h l = true
       ∨ ∃ before after,
           steps = (before ++ StepNewAbortController :: after)%list
           ∧ l = signal (AbortController_constructor (exec before h)).1)
  ∧ let c := (AbortController_constructor h).1 in
    let h' := (AbortController_constructor h).2 in
    signal_aborted h' (signal c) = Some false
    ∧ instanceof_AbortSignal h' (signal c) = true
    ∧ signal_events h' (signal c) = []
    ∧ h !! signal c = None
    ∧ ∀ l, l ≠ signal c → h' !! l = h !! l.
Proof.
  split; [done|]. split; [done|]. split; [done|].
  split; [intros l; apply exec_instances|].
  unfold AbortController_constructor.
  pose proof (lookup_createAbortSignal h) as Hl.
  pose proof (createAbortSignal_fresh h) as Hf.
  pose proof (createAbortSignal_other h) as Ho.
  destruct (createAbortSignal h) as [s h0]; simpl in *.
  unfold signal_aborted, instanceof_AbortSignal, signal_events. rewrite Hl.
  repeat split; done.
Qed.

(** An event target that the program gives the prototype of [AbortSignal]
    is an instance that no controller made. *)
Lemma reprototyped_event_target_is_signal :
  forallb uses_classes_only reprototyped_event_target = false
  ∧ instanceof_AbortSignal (exec reprototyped_event_target ∅) 1%positive = true
  ∧ signal_aborted (exec reprototyped_event_target ∅) 1%positive = Some false
  ∧ instanceof_AbortSignal ∅ 1%positive = false
  ∧ ∀ before after,
      reprototyped_event_target ≠ (before ++ StepNewAbortController :: after)%list.
Proof.
  split; [done|]. split; [by vm_compute|]. split; [by vm_compute|]. split; [done|].
  intros before after. unfold reprototyped_event_target.
  destruct before as [|s1 [|s2 [|s3 before]]]; discriminate.
Qed.

End AbortProps.

(** ** Properties of the key module *)

Module KeysProps.
Import Keys.

Lemma Get_own (cls : Class) (props : list (PropKey * value)) (name : string) :
  name ≠ "type" → Get (VObject cls props) name = Ok (own (PStr name) props).
Proof.
  intros Hne. simpl. rewrite (bool_decide_eq_false_2 _ Hne). done.
Qed.

Lemma Get_string_object (v : value) (name s : string) :
  Get v name = Ok (VString s) → ∃ cls props, v = VObject cls props.
Proof.
  destruct v; simpl; try discriminate; eauto.
  case_bool_decide; discriminate.
Qed.

(** The accessor [type] of a Crypto Key, read as a property, is the
    method [CryptoKey_type]. *)
Lemma Get_type_CryptoKey (props : list (PropKey * value)) :
  Get (VObject ClsInternalCryptoKey props) "type"
  = CryptoKey_type (VObject ClsInternalCryptoKey props).
Proof.
  unfold CryptoKey_type; simpl.
  induction props as [|[k x] rest IH]; simpl; [done|].
  destruct (decide (PSym kKeyObject = k)); done.
Qed.

Lemma Get_type_KeyObject (cls : Class) (props : list (PropKey * value)) :
  isKeyObjectClass cls = true →
  Get (VObject cls props) "type" = KeyObject_type (VObject cls props).
Proof. intros Hc. simpl. by rewrite Hc. Qed.

Lemma KeyObject_constructor_eq (target : KeyObjectTarget) (type handle : value) :
  KeyObject_constructor target type handle =
    if negb (valid_category type) then Throw (ERR_INVALID_ARG_VALUE "type" type)
    else if negb (instanceof_KeyObjectHandle handle)
    then Throw (ERR_INVALID_ARG_TYPE "handle" ["object"] handle)
    else Ok (VObject (target_class target)
               [(PSym kKeyType, type); (PSym kHandle, handle)]).
Proof.
  unfold KeyObject_constructor, valid_category.
  rewrite !negb_orb.
  destruct (negb (is_string type "secret") && negb (is_string type "public") &&
            negb (is_string type "private")); [done|].
  destruct handle; done.
Qed.

Section WithNative.
Context `{Native}.

(** Whatever a factory returns wraps a handle of the factory's key type
    under the factory's category, and is an instance of [KeyObject]. *)
Lemma createSecretKey_category (key encoding o : value) :
  createSecretKey key encoding = Ok o →
  category_matches_handle o = true ∧ Get o "type" = Ok (VString "secret")
  ∧ isKeyObject o = true.
Proof.
  unfold createSecretKey.
  destruct (prepareSecretKey key encoding true) as [k|]; simpl; [|done].
  destruct (Get k "byteLength") as [n|]; simpl; [|done].
  assert (bind (handle_init new_KeyObjectHandle kKeyTypeSecret k None None VUndefined)
            (λ handle, SecretKeyObject_constructor (VHandle handle)) = Ok o →
          category_matches_handle o = true ∧ Get o "type" = Ok (VString "secret")
          ∧ isKeyObject o = true) as Hgo.
  { destruct k; simpl; try done. intros [= <-]. done. }
  destruct n as [| | | [| |] | | | | | |]; done.
Qed.

Lemma createPublicKey_category (key o : value) :
  createPublicKey key = Ok o →
  category_matches_handle o = true ∧ Get o "type" = Ok (VString "public")
  ∧ isKeyObject o = true.
Proof.
  unfold createPublicKey.
  destruct (prepareAsymmetricKey key kCreatePublic) as [p|]; simpl; [|done].
  destruct (loadAsymmetricKey _ _ _ _ _); simpl; [|done].
  intros [= <-]. done.
Qed.

Lemma createPrivateKey_category (key o : value) :
  createPrivateKey key = Ok o →
  category_matches_handle o = true ∧ Get o "type" = Ok (VString "private")
  ∧ isKeyObject o = true.
Proof.
  unfold createPrivateKey.
  destruct (prepareAsymmetricKey key kCreatePrivate) as [p|]; simpl; [|done].
  destruct (loadAsymmetricKey _ _ _ _ _); simpl; [|done].
  intros [= <-]. done.
Qed.

(** C1 (as amended).  The category of a Key Object is fixed at
    construction: the constructor succeeds exactly when the type is one of
    [secret], [public], [private] and the handle is a [KeyObjectHandle],
    and the object it makes reports that type and holds that handle; any
    other type is an invalid-argument-value error and any other handle an
    invalid-argument-type error.  The constructor does not look at the key
    type of the handle; the category equals the handle's key type for the
    Key Objects the three factory functions make. *)
Theorem KeyObject_category (target : KeyObjectTarget) (type handle key encoding : value) :
  match KeyObject_constructor target type handle with
  | Ok o =>
      valid_category type = true ∧ instanceof_KeyObjectHandle handle = true
      ∧ Get o "type" = Ok type ∧ KeyObject_type o = Ok type
      ∧ GetSym o kHandle = Ok handle ∧ isKeyObject o = true
  | Throw e =>
      e = (if valid_category type
           then ERR_INVALID_ARG_TYPE "handle" ["object"] handle
           else ERR_INVALID_ARG_VALUE "type" type)
      ∧ valid_category type && instanceof_KeyObjectHandle handle = false
  end
  ∧ match createSecretKey key encoding with
    | Ok o => category_matches_handle o = true ∧ Get o "type" = Ok (VString "secret")
    | Throw _ => True
    end
  ∧ match createPublicKey key with
    | Ok o => category_matches_handle o = true ∧ Get o "type" = Ok (VString "public")
    | Throw _ => True
    end
  ∧ match createPrivateKey key with
    | Ok o => category_matches_handle o = true ∧ Get o "type" = Ok (VString "private")
    | Throw _ => True
    end.
Proof.
  split; [|split; [|split]].
  - rewrite KeyObject_constructor_eq.
    destruct (valid_category type) eqn:Hv; simpl; [|done].
    destruct (instanceof_KeyObjectHandle handle) eqn:Hh; simpl; [|done].
    repeat split; try done.
    + simpl. by destruct target.
    + by destruct target.
  - destruct (createSecretKey key encoding) as [o|] eqn:E; [|done].
    by destruct (createSecretKey_category _ _ _ E) as (? & ? & _).
  - destruct (createPublicKey key) as [o|] eqn:E; [|done].
    by destruct (createPublicKey_category _ _ E) as (? & ? & _).
  - destruct (createPrivateKey key) as [o|] eqn:E; [|done].
    by destruct (createPrivateKey_category _ _ E) as (? & ? & _).
Qed.






(** C4 (as amended).  [isKeyObject] holds exactly for the objects whose
    class is [KeyObject] or one of its subclasses, whatever their
    properties, and so for every value a factory function returns.
    [isCryptoKey] holds exactly for the objects that carry a [kKeyObject]
    property other than [undefined], whatever their class, and so for every
    instance the internal constructor or the receiving side of a clone
    makes with a defined key object. *)
Theorem recognition_checks (v key encoding keyObject algorithm keyUsages extractable : value)
    (c : Clone) :
  (isKeyObject v = true ↔ ∃ cls props, v = VObject cls props ∧ isKeyObjectClass cls = true)
  ∧ (isCryptoKey v = true ↔
       ∃ cls props, v = VObject cls props ∧ own (PSym kKeyObject) props ≠ VUndefined)
  ∧ match createSecretKey key encoding with
    | Ok o => isKeyObject o = true
    | Throw _ => True
    end
  ∧ match createPublicKey key with
    | Ok o => isKeyObject o = true
    | Throw _ => True
    end
  ∧ match createPrivateKey key with
    | Ok o => isKeyObject o = true
    | Throw _ => True
    end
  ∧ isCryptoKey (InternalCryptoKey_constructor keyObject algorithm keyUsages extractable)
    = negb (is_undefined keyObject)
  ∧ isCryptoKey (receive c) = negb (is_undefined (cd_keyObject (clone_data c))).
Proof.
  split; [split|split; [split|]]; [| | | |split; [|split; [|split; [|split]]]].
  - destruct v; simpl; try discriminate. eauto.
  - intros (cls & props & -> & Hc). done.
  - unfold isCryptoKey. destruct v; simpl; try discriminate.
    intros Hn. exists cls, props. split; [done|].
    intros Hu. rewrite Hu in Hn. discriminate.
  - intros (cls & props & -> & Hn). unfold isCryptoKey; simpl.
    by destruct (own (PSym kKeyObject) props).
  - destruct (createSecretKey key encoding) as [o|] eqn:E; [|done].
    by destruct (createSecretKey_category _ _ _ E) as (_ & _ & ?).
  - destruct (createPublicKey key) as [o|] eqn:E; [|done].
    by destruct (createPublicKey_category _ _ E) as (_ & _ & ?).
  - destruct (createPrivateKey key) as [o|] eqn:E; [|done].
    by destruct (createPrivateKey_category _ _ E) as (_ & _ & ?).
  - unfold isCryptoKey; simpl. done.
  - unfold isCryptoKey; simpl. done.
Qed.

(** C6 (as amended).  The type tag [spki] is refused exactly in the
    private context: with [isPublic === false] it is an
    invalid-argument-value error naming the option, and with any other
    [isPublic], the public one ([true]) and the unrestricted one
    ([undefined]) alike, it resolves to SPKI, whether or not a type is
    required and whatever the key's family. *)
Theorem parseKeyType_spki (required : bool) (keyType isPublic : value) (optionName : string) :
  parseKeyType (VString "spki") required keyType isPublic optionName =
    if is_bool isPublic false
    then Throw (ERR_INVALID_ARG_VALUE optionName (VString "spki"))
    else Ok (Some kKeyEncodingSPKI).
Proof.
  unfold parseKeyType; simpl.
  by destruct (is_bool isPublic false), (is_bool isPublic true).
Qed.

Lemma ArrayFrom_array (v r : value) :
  ArrayFrom v = Ok r → ArrayFrom r = Ok r.
Proof.
  unfold ArrayFrom. destruct v; simpl;
    try (destruct (ArrayFromIterable _); simpl; [|discriminate]);
    by intros [= <-].
Qed.

(** C2.  A Crypto Key that can be serialised with [kClone] is
    reconstructed by the receiving side as a Crypto Key whose [type],
    [extractable], [algorithm] and [usages], in the same order, read as
    they do on the original; the snapshot names the internal class as the
    one to instantiate. *)
Theorem clone_roundtrip (k : value) (c : Clone) :
  kClone k = Ok c →
  CryptoKey_type (receive c) = CryptoKey_type k
  ∧ CryptoKey_extractable (receive c) = CryptoKey_extractable k
  ∧ CryptoKey_algorithm (receive c) = CryptoKey_algorithm k
  ∧ CryptoKey_usages (receive c) = CryptoKey_usages k
  ∧ CryptoKey_usages k = Ok (cd_usages (clone_data c))
  ∧ clone_deserializeInfo c = "internal/crypto/keys:InternalCryptoKey".
Proof.
  unfold kClone, CryptoKey_algorithm, CryptoKey_extractable, CryptoKey_usages,
    CryptoKey_type.
  destruct (GetSym k kKeyObject) as [ko|]; simpl; [|done].
  destruct (GetSym k kAlgorithm) as [alg|]; simpl; [|done].
  destruct (GetSym k kExtractable) as [ex|]; simpl; [|done].
  destruct (GetSym k kKeyUsages) as [us|]; simpl; [|done].
  destruct (ArrayFrom us) as [r|] eqn:Hr; simpl; [|done].
  intros [= <-]. simpl.
  rewrite (ArrayFrom_array _ _ Hr). done.
Qed.

(** A Crypto Key as the internal constructor makes it, with its usages in
    an array, is reconstructed identically. *)
Lemma clone_roundtrip_constructed (keyObject algorithm extractable : value)
    (usages : list value) :
  let k := InternalCryptoKey_constructor keyObject algorithm (VArray usages) extractable in
  ∃ c, kClone k = Ok c ∧ receive c = k.
Proof. eexists. split; reflexivity. Qed.

(** Serialisation succeeds exactly when the usages can be read. *)
Lemma kClone_succeeds (cls : Class) (props : list (PropKey * value)) :
  succeeds (kClone (VObject cls props)) = succeeds (CryptoKey_usages (VObject cls props)).
Proof.
  unfold kClone, CryptoKey_algorithm, CryptoKey_extractable; simpl.
  by destruct (CryptoKey_usages (VObject cls props)).
Qed.

(** C5 (as amended).  In a private-key export negotiation (the key's
    family [keyType] is defined) that asks for format [der], type [pkcs1]
    or [sec1] and a cipher that is neither [null] nor [undefined], the
    negotiation always fails: with an incompatible-key-options error when
    the type does not fit the key's family, otherwise with an
    incompatible-key-options error when the cipher is a string, whether or
    not it names a cipher, and with an invalid-argument-value error naming
    the cipher option when the cipher is not a string. *)
Theorem private_export_der_cipher (enc keyType cipher : value) (objName : option string)
    (t : string) :
  keyType ≠ VUndefined →
  Get enc "format" = Ok (VString "der") →
  Get enc "type" = Ok (VString t) →
  t = "pkcs1" ∨ t = "sec1" →
  Get enc "cipher" = Ok cipher →
  is_nullish cipher = false →
  parsePrivateKeyEncoding enc keyType objName =
    Throw (if negb (is_string keyType (if bool_decide (t = "pkcs1") then "rsa" else "ec"))
           then ERR_CRYPTO_INCOMPATIBLE_KEY_OPTIONS t
                  (if bool_decide (t = "pkcs1")
                   then "can only be used for RSA keys"
                   else "can only be used for EC keys")
           else if bool_decide (typeof cipher = "string")
           then ERR_CRYPTO_INCOMPATIBLE_KEY_OPTIONS t "does not support encryption"
           else ERR_INVALID_ARG_VALUE (option_ "cipher" objName) cipher)
  ∧ (typeof cipher = "string" →
     ∃ name msg, parsePrivateKeyEncoding enc keyType objName
                 = Throw (ERR_CRYPTO_INCOMPATIBLE_KEY_OPTIONS name msg)).
Proof.
  intros Hk Hf Ht Htt Hc Hn.
  assert (is_undefined keyType = false) as Hu by (by destruct keyType).
  destruct (Get_string_object _ _ _ Hf) as (cls & props & ->).
  match goal with |- ?A ∧ _ => assert A as Heq; [|split; [exact Heq|]] end.
  - unfold parsePrivateKeyEncoding, parseKeyEncoding, parseKeyFormatAndType.
    rewrite Hf, Ht, Hc, Hu.
    rewrite !Get_own by done.
    destruct Htt as [-> | ->]; simpl; unfold parseKeyType; simpl; rewrite Hu; simpl.
    + destruct (is_string keyType "rsa"); simpl; [|done].
      rewrite Hn; simpl. by case_bool_decide.
    + destruct (is_string keyType "ec"); simpl; [|done].
      rewrite Hn; simpl. by case_bool_decide.
  - intros Hs. rewrite Heq. rewrite (bool_decide_eq_true_2 _ Hs).
    destruct (negb _); eauto.
Qed.

(** C7.  In the create-private-key context an existing Key Object or Crypto
    Key is always rejected with an invalid-argument-type error that lists
    only raw material as acceptable, whether it is passed directly or as
    the [key] field of an options object; [createPrivateKey] fails with the
    same error. *)
Theorem createPrivate_rejects_key_objects (k opts : value) :
  isKeyObject k = true ∨ isCryptoKey k = true →
  (∃ actual,
     prepareAsymmetricKey k kCreatePrivate
     = Throw (raw_material_only actual)
     ∧ createPrivateKey k
       = Throw (raw_material_only actual))
  ∧ (Get opts "key" = Ok k →
     ∃ actual,
       prepareAsymmetricKey opts kCreatePrivate
       = Throw (raw_material_only actual)
       ∧ createPrivateKey opts
         = Throw (raw_material_only actual)).
Proof.
  intros Hk.
  assert (∀ v, isKeyObject v = true ∨ isCryptoKey v = true →
            ∃ actual, prepareAsymmetricKey v kCreatePrivate
                      = Throw (raw_material_only actual)) as Hdirect.
  { intros v Hv. unfold prepareAsymmetricKey.
    destruct (isKeyObject v) eqn:Hko; [by eexists|].
    destruct Hv as [|Hck]; [done|]. rewrite Hck.
    destruct v; try done. by eexists. }
  assert (∀ v actual,
            prepareAsymmetricKey v kCreatePrivate
            = Throw (raw_material_only actual) →
            ∃ actual',
              prepareAsymmetricKey v kCreatePrivate
              = Throw (raw_material_only actual')
              ∧ createPrivateKey v
                = Throw (raw_material_only actual')) as Hcreate.
  { intros v actual Hv. exists actual. split; [done|].
    unfold createPrivateKey. by rewrite Hv. }
  split.
  - destruct (Hdirect k Hk) as [actual Ha]. eauto.
  - intros Hget.
    assert (∃ cls props, opts = VObject cls props) as (cls & props & ->).
    { destruct opts; simpl in Hget; try done; eauto;
        injection Hget as <-; by destruct Hk. }
    destruct (isKeyObject (VObject cls props) || isCryptoKey (VObject cls props)) eqn:Ho.
    + apply orb_true_iff in Ho. destruct (Hdirect _ Ho) as [actual Ha]. eauto.
    + apply orb_false_iff in Ho as [Ho1 Ho2].
      destruct (Hdirect k Hk) as [actual Ha].
      apply (Hcreate _ actual).
      unfold prepareAsymmetricKey. rewrite Ho1, Ho2, Hget.
      rewrite Get_own by done. simpl.
      unfold prepareAsymmetricKey in Ha.
      destruct (isKeyObject k) eqn:Hko; [done|].
      destruct Hk as [|Hck]; [done|]. rewrite Hck in *.
      destruct (GetSym k kKeyObject); simpl in *; done.
Qed.

(** C8.  For every non-empty byte sequence [b], in an ArrayBuffer or in a
    view, [createSecretKey(b)] succeeds with an instance of
    [SecretKeyObject] of category [secret] whose [export()] returns the
    bytes [b]. *)
Theorem createSecretKey_export (kind : BufferKind) (b : list byte) (encoding : value) :
  b ≠ [] →
  ∃ k, createSecretKey (VBuffer kind b) encoding = Ok k
       ∧ SecretKeyObject_export k = Ok (VBuffer ArrayBufferView b)
       ∧ Get k "type" = Ok (VString "secret")
       ∧ isKeyObject k = true.
Proof.
  intros Hb. destruct b as [|x b]; [done|].
  unfold createSecretKey, prepareSecretKey.
  destruct kind; simpl; eexists; repeat split.
Qed.

(** The spec's companion property: an empty byte sequence is out of range. *)
Lemma createSecretKey_empty (kind : BufferKind) (encoding : value) :
  createSecretKey (VBuffer kind []) encoding
  = Throw (ERR_OUT_OF_RANGE "key.byteLength" "> 0" (VNumber 0)).
Proof. by destruct kind. Qed.

End WithNative.

(** *** Evaluations on concrete inputs *)

#[local] Existing Instance sample_native.



(** [new PublicKeyObject(handle)] on the handle of a secret key. *)
Lemma KeyObject_category_mismatch :
  ∃ o, PublicKeyObject_constructor (VHandle secret_handle) = Ok o
       ∧ Get o "type" = Ok (VString "public")
       ∧ GetSym o kHandle = Ok (VHandle secret_handle)
       ∧ handle_keyType secret_handle = Some kKeyTypeSecret
       ∧ category_matches_handle o = false.
Proof. eexists. repeat split. Qed.

Lemma clone_roundtrip_witness :
  kClone sample_crypto_key = Ok sample_clone
  ∧ CryptoKey_type (receive sample_clone) = CryptoKey_type sample_crypto_key
  ∧ CryptoKey_extractable (receive sample_clone) = CryptoKey_extractable sample_crypto_key
  ∧ CryptoKey_algorithm (receive sample_clone) = CryptoKey_algorithm sample_crypto_key
  ∧ CryptoKey_usages (receive sample_clone) = CryptoKey_usages sample_crypto_key
  ∧ CryptoKey_usages sample_crypto_key = Ok (cd_usages (clone_data sample_clone))
  ∧ clone_deserializeInfo sample_clone = "internal/crypto/keys:InternalCryptoKey".
Proof.
  split; [reflexivity|].
  apply (clone_roundtrip sample_crypto_key sample_clone). reflexivity.
Defined.

Example clone_roundtrip_values :
  CryptoKey_type (receive sample_clone) = Ok (VString "secret")
  ∧ CryptoKey_usages (receive sample_clone) = Ok sample_usages
  ∧ isCryptoKey (receive sample_clone) = true.
Proof. repeat split. Qed.

Lemma forged_objects_recognised :
  isCryptoKey forged_crypto_key = true
  ∧ isCryptoKey (InternalCryptoKey_constructor VUndefined VUndefined VUndefined VUndefined)
    = false
  ∧ (∀ keyObject algorithm keyUsages extractable,
       InternalCryptoKey_constructor keyObject algorithm keyUsages extractable
       ≠ forged_crypto_key)
  ∧ (∀ c, receive c ≠ forged_crypto_key)
  ∧ isKeyObject bare_key_object = true
  ∧ (∀ (N : Native) key encoding,
       @createSecretKey N key encoding ≠ Ok bare_key_object
       ∧ @createPublicKey N key ≠ Ok bare_key_object
       ∧ @createPrivateKey N key ≠ Ok bare_key_object).
Proof.
  split; [done|]. split; [done|]. split; [done|]. split; [done|]. split; [done|].
  intros N key encoding. repeat split; intros E.
  - by destruct (createSecretKey_category _ _ _ E) as (_ & ? & _).
  - by destruct (createPublicKey_category _ _ E) as (_ & ? & _).
  - by destruct (createPrivateKey_category _ _ E) as (_ & ? & _).
Qed.

Lemma private_export_numeric_cipher :
  is_nullish (VNumber 42) = false
  ∧ parsePrivateKeyEncoding (der_sec1 (VNumber 42)) (VString "ec") None
    = Throw (ERR_INVALID_ARG_VALUE "options.cipher" (VNumber 42))
  ∧ ¬ ∃ name msg,
        parsePrivateKeyEncoding (der_sec1 (VNumber 42)) (VString "ec") None
        = Throw (ERR_CRYPTO_INCOMPATIBLE_KEY_OPTIONS name msg).
Proof.
  split; [done|]. split; [done|].
  intros (name & msg & E). discriminate E.
Qed.

Lemma private_export_der_cipher_witness :
  parsePrivateKeyEncoding (der_sec1 (VString "aes-256-cbc")) (VString "ec") None
  = Throw (ERR_CRYPTO_INCOMPATIBLE_KEY_OPTIONS "sec1" "does not support encryption")
  ∧ ∃ name msg,
      parsePrivateKeyEncoding (der_sec1 (VString "aes-256-cbc")) (VString "ec") None
      = Throw (ERR_CRYPTO_INCOMPATIBLE_KEY_OPTIONS name msg).
Proof.
  destruct (private_export_der_cipher (der_sec1 (VString "aes-256-cbc")) (VString "ec")
              (VString "aes-256-cbc") None "sec1") as [Heq Hex].
  - discriminate.
  - reflexivity.
  - reflexivity.
  - right. reflexivity.
  - reflexivity.
  - reflexivity.
  - split; [exact Heq|]. apply Hex. reflexivity.
Defined.

Lemma spki_unrestricted_context :
  is_bool VUndefined true = false
  ∧ parseKeyType (VString "spki") true VUndefined VUndefined "options.type"
    = Ok (Some kKeyEncodingSPKI)
  ∧ preparePublicOrPrivateKey der_spki_key
    = Ok (mkPreparedKey (Some kKeyFormatDER) (Some kKeyEncodingSPKI)
            (VBuffer ArrayBufferView [Init.Byte.x30]) VUndefined VUndefined).
Proof. repeat split. Qed.

Example spki_private_context :
  preparePrivateKey der_spki_key
  = Throw (ERR_INVALID_ARG_VALUE "options.type" (VString "spki")).
Proof. reflexivity. Qed.

Lemma createPrivate_rejects_key_objects_witness :
  (∃ actual,
     prepareAsymmetricKey sample_crypto_key kCreatePrivate
     = Throw (raw_material_only actual)
     ∧ createPrivateKey sample_crypto_key
       = Throw (raw_material_only actual))
  ∧ (∃ actual,
       prepareAsymmetricKey (VObject ClsObject [(PStr "key", sample_crypto_key)])
         kCreatePrivate
       = Throw (raw_material_only actual)
       ∧ createPrivateKey (VObject ClsObject [(PStr "key", sample_crypto_key)])
         = Throw (raw_material_only actual)).
Proof.
  destruct (createPrivate_rejects_key_objects sample_crypto_key
              (VObject ClsObject [(PStr "key", sample_crypto_key)])) as [Hd Ho].
  - right. reflexivity.
  - split; [exact Hd|]. apply Ho. reflexivity.
Defined.

Example createPrivate_rejects_values :
  createPrivateKey sample_secret_key
  = Throw (raw_material_only sample_secret_key)
  ∧ createPrivateKey (VObject ClsObject [(PStr "key", sample_crypto_key)])
    = Throw (raw_material_only sample_secret_key).
Proof. split; reflexivity. Qed.

Lemma createSecretKey_export_witness :
  ∃ k, createSecretKey (VBuffer ArrayBufferView [Init.Byte.x01; Init.Byte.x02]) VUndefined
       = Ok k
       ∧ SecretKeyObject_export k
         = Ok (VBuffer ArrayBufferView [Init.Byte.x01; Init.Byte.x02])
       ∧ Get k "type" = Ok (VString "secret")
       ∧ isKeyObject k = true.
Proof.
  apply (createSecretKey_export ArrayBufferView [Init.Byte.x01; Init.Byte.x02] VUndefined).
  discriminate.
Defined.

(** The two other factories on raw material, and [createPublicKey] on an
    existing private Key Object. *)
Example createPublicKey_value :
  createPublicKey der_spki_key
  = Ok (VObject ClsPublicKeyObject
          [(PSym kKeyType, VString "public");
           (PSym kHandle, VHandle (mkHandle (Some kKeyTypePublic) [Init.Byte.x30]))])
  ∧ createPrivateKey (VBuffer ArrayBufferView [Init.Byte.x30])
    = Ok (VObject ClsPrivateKeyObject
            [(PSym kKeyType, VString "private");
             (PSym kHandle, VHandle (mkHandle (Some kKeyTypePrivate) [Init.Byte.x30]))])
  ∧ createPublicKey
      (VObject ClsPrivateKeyObject
         [(PSym kKeyType, VString "private");
          (PSym kHandle, VHandle (mkHandle (Some kKeyTypePrivate) [Init.Byte.x30]))])
    = Ok (VObject ClsPublicKeyObject
            [(PSym kKeyType, VString "public");
             (PSym kHandle, VHandle (mkHandle (Some kKeyTypePublic) [Init.Byte.x30]))])
  ∧ createPublicKey sample_secret_key
    = Throw (ERR_CRYPTO_INVALID_KEY_OBJECT_TYPE (VString "secret") "private").
Proof. repeat split. Qed.

Example createSecretKey_value :
  createSecretKey (VBuffer ArrayBufferView [Init.Byte.x01; Init.Byte.x02]) VUndefined
  = Ok sample_secret_key.
Proof. reflexivity. Qed.

End KeysProps.

(** ** Further properties of the encoding negotiator *)

Module NegotiatorProps.
Import Keys KeysProps.

Lemma is_string_true (v : value) (s : string) :
  is_string v s = true ↔ v = VString s.
Proof.
  destruct v; simpl; try (split; [discriminate|intros [=]]).
  rewrite bool_decide_eq_true. split; [by intros ->|by intros [= ->]].
Qed.

Lemma is_undefined_true (v : value) : is_undefined v = true ↔ v = VUndefined.
Proof. destruct v; simpl; split; try done. Qed.

Lemma is_undefined_false (v : value) : is_undefined v = false ↔ v ≠ VUndefined.
Proof. destruct v; simpl; split; try done. Qed.

Lemma parseKeyType_inv (typeStr : value) (required : bool) (keyType isPublic : value)
    (optionName : string) (t : KeyEncoding) :
  parseKeyType typeStr required keyType isPublic optionName = Ok (Some t) →
  typeStr = VString (encodingNames t)
  ∧ (t = kKeyEncodingSPKI → is_bool isPublic false = false)
  ∧ (t = kKeyEncodingPKCS8 ∨ t = kKeyEncodingSEC1 → is_bool isPublic true = false)
  ∧ (t = kKeyEncodingPKCS1 → keyType = VUndefined ∨ keyType = VString "rsa")
  ∧ (t = kKeyEncodingSEC1 → keyType = VUndefined ∨ keyType = VString "ec").
Proof.
  unfold parseKeyType.
  destruct (is_undefined typeStr && negb required); [discriminate|].
  destruct (is_string typeStr "pkcs1") eqn:E1.
  { apply is_string_true in E1 as ->.
    destruct (is_undefined keyType) eqn:Eu; simpl.
    - apply is_undefined_true in Eu as ->. intros [= <-].
      repeat split; try discriminate; intros; try (by left); by destruct H.
    - destruct (is_string keyType "rsa") eqn:Er; simpl; [|discriminate].
      apply is_string_true in Er as ->. intros [= <-].
      repeat split; try discriminate; intros; try (by right); by destruct H. }
  destruct (is_string typeStr "spki") eqn:E2.
  { apply is_string_true in E2 as ->.
    destruct (is_bool isPublic false) eqn:Eb; simpl.
    - destruct (is_bool isPublic true); discriminate.
    - intros [= <-]. repeat split; try discriminate; intros; by destruct H. }
  simpl.
  destruct (is_string typeStr "pkcs8") eqn:E3.
  { apply is_string_true in E3 as ->.
    destruct (is_bool isPublic true) eqn:Eb; simpl; [discriminate|].
    intros [= <-]. repeat split; try discriminate; done. }
  simpl.
  destruct (is_string typeStr "sec1") eqn:E4; simpl; [|discriminate].
  apply is_string_true in E4 as ->.
  destruct (is_bool isPublic true) eqn:Eb; simpl; [discriminate|].
  destruct (is_undefined keyType) eqn:Eu; simpl.
  - apply is_undefined_true in Eu as ->. intros [= <-].
    repeat split; try discriminate; intros; try done; by left.
  - destruct (is_string keyType "ec") eqn:Er; simpl; [|discriminate].
    apply is_string_true in Er as ->. intros [= <-].
    repeat split; try discriminate; intros; try done; by right.
Qed.

(** X1.  What a resolved type tag guarantees: the tag is the name of the
    encoding; SPKI is never resolved in the private context, PKCS8 and SEC1
    never in the public one; PKCS1 is resolved only for an input or an RSA
    key and SEC1 only for an input or an EC key. *)
Theorem parseKeyType_sound (typeStr : value) (required : bool) (keyType isPublic : value)
    (optionName : string) (t : KeyEncoding) :
  parseKeyType typeStr required keyType isPublic optionName = Ok (Some t) →
  typeStr = VString (encodingNames t)
  ∧ (t = kKeyEncodingSPKI → is_bool isPublic false = false)
  ∧ (t = kKeyEncodingPKCS8 ∨ t = kKeyEncodingSEC1 → is_bool isPublic true = false)
  ∧ (t = kKeyEncodingPKCS1 → keyType = VUndefined ∨ keyType = VString "rsa")
  ∧ (t = kKeyEncodingSEC1 → keyType = VUndefined ∨ keyType = VString "ec").
Proof. apply parseKeyType_inv. Qed.

Lemma parseKeyType_sound_witness :
  VString "sec1" = VString (encodingNames kKeyEncodingSEC1)
  ∧ (kKeyEncodingSEC1 = kKeyEncodingSPKI → is_bool (VBool false) false = false)
  ∧ (kKeyEncodingSEC1 = kKeyEncodingPKCS8 ∨ kKeyEncodingSEC1 = kKeyEncodingSEC1 →
     is_bool (VBool false) true = false)
  ∧ (kKeyEncodingSEC1 = kKeyEncodingPKCS1 →
     VString "ec" = VUndefined ∨ VString "ec" = VString "rsa")
  ∧ (kKeyEncodingSEC1 = kKeyEncodingSEC1 →
     VString "ec" = VUndefined ∨ VString "ec" = VString "ec").
Proof.
  apply (parseKeyType_sound (VString "sec1") true (VString "ec") (VBool false)
           "options.type" kKeyEncodingSEC1).
  reflexivity.
Defined.

Lemma is_string_false (v : value) (s : string) :
  is_string v s = false ↔ v ≠ VString s.
Proof.
  rewrite <- is_string_true. destruct (is_string v s); split; done.
Qed.

(** X2.  The errors of the type resolution.  A type that does not fit the
    key's family (PKCS1 for a key that is not RSA, SEC1 for one that is not
    EC) is an incompatible-key-options error; every other failure is an
    invalid-argument-value error that names the option and carries the
    offending tag: an unknown tag, a missing tag where one is required,
    SPKI in the private context, PKCS8 or SEC1 in the public one. *)
Theorem parseKeyType_errors (typeStr : value) (required : bool) (keyType isPublic : value)
    (optionName : string) (e : error) :
  parseKeyType typeStr required keyType isPublic optionName = Throw e →
  (e = ERR_CRYPTO_INCOMPATIBLE_KEY_OPTIONS "pkcs1" "can only be used for RSA keys"
   ∧ typeStr = VString "pkcs1" ∧ keyType ≠ VUndefined ∧ keyType ≠ VString "rsa")
  ∨ (e = ERR_CRYPTO_INCOMPATIBLE_KEY_OPTIONS "sec1" "can only be used for EC keys"
     ∧ typeStr = VString "sec1" ∧ is_bool isPublic true = false
     ∧ keyType ≠ VUndefined ∧ keyType ≠ VString "ec")
  ∨ (e = ERR_INVALID_ARG_VALUE optionName typeStr
     ∧ typeStr ≠ VString "pkcs1"
     ∧ (typeStr = VString "spki" → is_bool isPublic false = true)
     ∧ (typeStr = VString "pkcs8" ∨ typeStr = VString "sec1" → is_bool isPublic true = true)
     ∧ (typeStr = VUndefined → required = true)).
Proof.
  unfold parseKeyType.
  destruct (is_undefined typeStr && negb required) eqn:Eo; [discriminate|].
  destruct (is_string typeStr "pkcs1") eqn:E1.
  { apply is_string_true in E1 as ->.
    destruct (is_undefined keyType) eqn:Eu; simpl; [discriminate|].
    destruct (is_string keyType "rsa") eqn:Er; simpl; [discriminate|].
    intros [= <-]. left. repeat split.
    - by apply is_undefined_false.
    - by apply is_string_false. }
  apply is_string_false in E1.
  destruct (is_string typeStr "spki") eqn:E2.
  { apply is_string_true in E2 as ->.
    destruct (is_bool isPublic false) eqn:Eb; simpl; [|discriminate].
    destruct (is_bool isPublic true) eqn:Eb'; simpl.
    { by destruct isPublic as [| |[|]| | | | | | |]. }
    intros [= <-]. right; right. repeat split; try done.
    intros [|]; discriminate. }
  apply is_string_false in E2. simpl.
  destruct (is_string typeStr "pkcs8") eqn:E3.
  { apply is_string_true in E3 as ->.
    destruct (is_bool isPublic true) eqn:Eb; simpl; [|discriminate].
    intros [= <-]. right; right. repeat split; done. }
  apply is_string_false in E3. simpl.
  destruct (is_string typeStr "sec1") eqn:E4.
  { apply is_string_true in E4 as ->.
    destruct (is_bool isPublic true) eqn:Eb; simpl.
    - intros [= <-]. right; right. repeat split; done.
    - destruct (is_undefined keyType) eqn:Eu; simpl; [discriminate|].
      destruct (is_string keyType "ec") eqn:Er; simpl; [discriminate|].
      intros [= <-]. right; left. repeat split; try done.
      + by apply is_undefined_false.
      + by apply is_string_false. }
  apply is_string_false in E4. simpl.
  intros [= <-]. right; right. repeat split; try done.
  - intros [|]; done.
  - intros ->. simpl in Eo. by destruct required.
Qed.

Lemma parseKeyType_errors_witness :
  (ERR_INVALID_ARG_VALUE "options.type" (VString "pkcs8")
   = ERR_CRYPTO_INCOMPATIBLE_KEY_OPTIONS "pkcs1" "can only be used for RSA keys"
   ∧ VString "pkcs8" = VString "pkcs1"
   ∧ VString "rsa" ≠ VUndefined ∧ VString "rsa" ≠ VString "rsa")
  ∨ (ERR_INVALID_ARG_VALUE "options.type" (VString "pkcs8")
     = ERR_CRYPTO_INCOMPATIBLE_KEY_OPTIONS "sec1" "can only be used for EC keys"
     ∧ VString "pkcs8" = VString "sec1" ∧ is_bool (VBool true) true = false
     ∧ VString "rsa" ≠ VUndefined ∧ VString "rsa" ≠ VString "ec")
  ∨ (ERR_INVALID_ARG_VALUE "options.type" (VString "pkcs8")
     = ERR_INVALID_ARG_VALUE "options.type" (VString "pkcs8")
     ∧ VString "pkcs8" ≠ VString "pkcs1"
     ∧ (VString "pkcs8" = VString "spki" → is_bool (VBool true) false = true)
     ∧ (VString "pkcs8" = VString "pkcs8" ∨ VString "pkcs8" = VString "sec1" →
        is_bool (VBool true) true = true)
     ∧ (VString "pkcs8" = VUndefined → true = true)).
Proof.
  apply (parseKeyType_errors (VString "pkcs8") true (VString "rsa") (VBool true)
           "options.type").
  reflexivity.
Defined.

Lemma parseKeyType_omitted (typeStr : value) (required : bool) (keyType isPublic : value)
    (optionName : string) :
  parseKeyType typeStr required keyType isPublic optionName = Ok None
  ↔ typeStr = VUndefined ∧ required = false.
Proof.
  unfold parseKeyType. split.
  - destruct (is_undefined typeStr) eqn:Eu; simpl.
    + apply is_undefined_true in Eu as ->. destruct required; simpl; [discriminate|done].
    + repeat (match goal with
              | |- context [if ?b then _ else _] => destruct b; simpl
              end; try discriminate).
  - by intros [-> ->].
Qed.

Lemma parseKeyFormatAndType_inv (enc keyType isPublic : value)
    (objName : option string) (ft : FormatAndType) :
  parseKeyFormatAndType enc keyType isPublic objName = Ok ft →
  ∃ formatStr typeStr,
    Get enc "format" = Ok formatStr ∧ Get enc "type" = Ok typeStr
    ∧ (ft_format ft = kKeyFormatPEM
       ∧ (formatStr = VString "pem" ∨ formatStr = VUndefined ∧ keyType = VUndefined)
       ∨ ft_format ft = kKeyFormatDER ∧ formatStr = VString "der")
    ∧ (ft_type ft = None
       ↔ typeStr = VUndefined ∧ keyType = VUndefined ∧ ft_format ft = kKeyFormatPEM).
Proof.
  unfold parseKeyFormatAndType.
  destruct (Get enc "format") as [f|]; simpl; [|discriminate].
  destruct (Get enc "type") as [ty|]; simpl; [|discriminate].
  destruct (parseKeyFormat f _ _) as [fmt|] eqn:Ef; simpl; [|discriminate].
  destruct (parseKeyType ty _ _ _ _) as [t|] eqn:Et; simpl; [|discriminate].
  intros [= <-]. exists f, ty. simpl. split; [done|]. split; [done|].
  assert (fmt = kKeyFormatPEM
          ∧ (f = VString "pem" ∨ f = VUndefined ∧ keyType = VUndefined)
          ∨ fmt = kKeyFormatDER ∧ f = VString "der") as Hf.
  { unfold parseKeyFormat in Ef.
    destruct (is_undefined f) eqn:Eu, (is_undefined keyType) eqn:Ek; simpl in Ef.
    - injection Ef as <-. apply is_undefined_true in Eu, Ek. left. eauto.
    - apply is_undefined_true in Eu as ->. discriminate.
    - destruct (is_string f "pem") eqn:E1.
      { injection Ef as <-. apply is_string_true in E1. left. eauto. }
      destruct (is_string f "der") eqn:E2; [|discriminate].
      injection Ef as <-. apply is_string_true in E2. by right.
    - destruct (is_string f "pem") eqn:E1.
      { injection Ef as <-. apply is_string_true in E1. left. eauto. }
      destruct (is_string f "der") eqn:E2; [|discriminate].
      injection Ef as <-. apply is_string_true in E2. by right. }
  split; [exact Hf|].
  split.
  - intros ->. apply parseKeyType_omitted in Et as [-> Hr].
    apply orb_false_iff in Hr as [Hi Hd].
    apply negb_false_iff, is_undefined_true in Hi.
    destruct fmt; [done|]. by rewrite bool_decide_eq_true_2 in Hd.
  - intros (-> & -> & ->). simpl in Et. by injection Et as <-.
Qed.

(** X3.  What a resolved format and type guarantee.  The format is PEM for
    the tag [pem], DER for the tag [der], and the default PEM only when the
    tag is missing on an input (no key type given).  The type is left out
    exactly when its tag is missing on a PEM input: a DER encoding and an
    output encoding always carry a type. *)
Theorem parseKeyFormatAndType_sound (enc keyType isPublic : value)
    (objName : option string) (ft : FormatAndType) :
  parseKeyFormatAndType enc keyType isPublic objName = Ok ft →
  ∃ formatStr typeStr,
    Get enc "format" = Ok formatStr ∧ Get enc "type" = Ok typeStr
    ∧ (ft_format ft = kKeyFormatPEM
       ∧ (formatStr = VString "pem" ∨ formatStr = VUndefined ∧ keyType = VUndefined)
       ∨ ft_format ft = kKeyFormatDER ∧ formatStr = VString "der")
    ∧ (ft_type ft = None
       ↔ typeStr = VUndefined ∧ keyType = VUndefined ∧ ft_format ft = kKeyFormatPEM).
Proof. apply parseKeyFormatAndType_inv. Qed.

Lemma parseKeyFormatAndType_sound_witness :
  ∃ formatStr typeStr,
    Get (der_sec1 VUndefined) "format" = Ok formatStr
    ∧ Get (der_sec1 VUndefined) "type" = Ok typeStr
    ∧ (ft_format (mkFormatAndType kKeyFormatDER (Some kKeyEncodingSEC1)) = kKeyFormatPEM
       ∧ (formatStr = VString "pem" ∨ formatStr = VUndefined ∧ VUndefined = VUndefined)
       ∨ ft_format (mkFormatAndType kKeyFormatDER (Some kKeyEncodingSEC1)) = kKeyFormatDER
         ∧ formatStr = VString "der")
    ∧ (ft_type (mkFormatAndType kKeyFormatDER (Some kKeyEncodingSEC1)) = None
       ↔ typeStr = VUndefined ∧ VUndefined = VUndefined
         ∧ ft_format (mkFormatAndType kKeyFormatDER (Some kKeyEncodingSEC1))
           = kKeyFormatPEM).
Proof.
  apply (parseKeyFormatAndType_sound (der_sec1 VUndefined) VUndefined (VBool false) None).
  reflexivity.
Defined.

Lemma own_set_prop (k k' : PropKey) (v : value) (props : list (PropKey * value)) :
  own k (set_prop k' v props) = if decide (k = k') then v else own k props.
Proof.
  induction props as [|[k0 v0] rest IH]; simpl.
  - by destruct (decide (k = k')).
  - destruct (decide (k' = k0)) as [->|Hne]; simpl.
    + destruct (decide (k = k0)); done.
    + rewrite IH. destruct (decide (k = k0)) as [->|]; [|done].
      destruct (decide (k0 = k')) as [->|]; done.
Qed.

Lemma Get_set_prop_other (cls : Class) (props : list (PropKey * value))
    (name name' : string) (v : value) :
  name ≠ name' →
  Get (VObject cls (set_prop (PStr name') v props)) name = Get (VObject cls props) name.
Proof.
  intros Hne.
  destruct (decide (name = "type")) as [->|Ht].
  - destruct (isKeyObjectClass cls) eqn:Hc.
    + rewrite !Get_type_KeyObject by done. unfold KeyObject_type; simpl.
      rewrite own_set_prop. done.
    + destruct (decide (cls = ClsInternalCryptoKey)) as [->|Hi].
      * rewrite !Get_type_CryptoKey. unfold CryptoKey_type; simpl.
        rewrite own_set_prop. done.
      * simpl. rewrite Hc. rewrite (bool_decide_eq_false_2 _ Hi). simpl.
        rewrite own_set_prop. destruct (decide _) as [[=]|]; done.
  - rewrite !Get_own by done. rewrite own_set_prop.
    destruct (decide _) as [[=]|]; done.
Qed.

Section WithNative.
Context `{Native}.

Lemma getArrayBufferOrView_buffer (v : value) (name : string) (encoding r : value) :
  getArrayBufferOrView v name encoding = Ok r → ∃ kind bytes, r = VBuffer kind bytes.
Proof.
  destruct v; simpl; try discriminate.
  - destruct (BufferFrom s encoding); simpl; [|discriminate]. intros [= <-]. eauto.
  - intros [= <-]. eauto.
Qed.

(** X4.  A format tag other than [pem] and [der] is rejected with an
    invalid-argument-value error that carries the tag and names the option
    by its path, [options.format] or [options.<objName>.format]; a missing
    tag is rejected in the same way when a key type is given, that is, for
    an output encoding, whatever the other options are. *)
Theorem format_rejected (cls : Class) (props : list (PropKey * value))
    (keyType isPublic : value) (objName : option string) :
  let formatStr := own (PStr "format") props in
  formatStr ≠ VString "pem" → formatStr ≠ VString "der" →
  (formatStr = VUndefined → keyType ≠ VUndefined) →
  succeeds (Get (VObject cls props) "type") = true →
  parseKeyEncoding (VObject cls props) keyType isPublic objName
  = Throw (ERR_INVALID_ARG_VALUE
             (match objName with
              | None => "options.format"
              | Some o => "options." +:+ o +:+ ".format"
              end) formatStr).
Proof.
  intros f Hpem Hder Hundef Hty.
  unfold parseKeyEncoding, parseKeyFormatAndType; simpl is_null; simpl typeof.
  rewrite Get_own by done. fold f.
  destruct (Get (VObject cls props) "type") as [ty|]; [|discriminate].
  apply is_string_false in Hpem, Hder.
  unfold parseKeyFormat. cbn [bind orb negb]. rewrite Hpem, Hder.
  rewrite bool_decide_eq_true_2 by done. cbn [negb].
  destruct (is_undefined f) eqn:Eu.
  - apply is_undefined_true in Eu. specialize (Hundef Eu).
    apply is_undefined_false in Hundef. rewrite Hundef. simpl.
    by destruct objName.
  - simpl. destruct (is_undefined keyType); simpl; by destruct objName.
Qed.

(** X5.  An output encoding negotiated for a public key never carries a
    cipher or a passphrase, whatever the options object holds, and its type
    is SPKI, or PKCS1 for an RSA key. *)
Theorem public_export_encoding (enc keyType : value) (objName : option string)
    (e : Encoding) :
  truthy keyType = true →
  parsePublicKeyEncoding enc keyType objName = Ok e →
  enc_cipher e = VUndefined ∧ enc_passphrase e = VUndefined
  ∧ (enc_type e = Some kKeyEncodingSPKI
     ∨ enc_type e = Some kKeyEncodingPKCS1 ∧ keyType = VString "rsa").
Proof.
  intros Ht. unfold parsePublicKeyEncoding, parseKeyEncoding. rewrite Ht.
  destruct (is_null enc || _); [discriminate|].
  destruct (parseKeyFormatAndType enc keyType (VBool true) objName) as [ft|] eqn:Eft;
    simpl; [|discriminate].
  intros [= <-]; simpl. split; [done|]. split; [done|].
  unfold parseKeyFormatAndType in Eft.
  destruct (Get enc "format") as [f|]; simpl in Eft; [|discriminate].
  destruct (Get enc "type") as [ty|]; simpl in Eft; [|discriminate].
  destruct (parseKeyFormat f _ _) as [fmt|]; simpl in Eft; [|discriminate].
  destruct (parseKeyType ty _ _ _ _) as [t|] eqn:Et; simpl in Eft; [|discriminate].
  injection Eft as <-. simpl.
  assert (keyType ≠ VUndefined) as Hk by (intros ->; discriminate).
  destruct t as [t|].
  - destruct (parseKeyType_inv _ _ _ _ _ _ Et) as (_ & _ & H8 & H1 & _).
    destruct t.
    + right. split; [done|]. by destruct H1.
    + discriminate H8. by left.
    + by left.
    + discriminate H8. by right.
  - apply parseKeyType_omitted in Et as [_ Hr].
    apply is_undefined_false in Hk. rewrite Hk in Hr. discriminate.
Qed.

(** X6.  What an output encoding negotiated for a private key guarantees.
    It has a type, which is not SPKI.  Without a cipher it has no
    passphrase.  With a cipher, the cipher is a string, the passphrase is a
    byte buffer, and the encoding is not DER with PKCS1 or SEC1. *)
Theorem private_export_encoding (enc keyType : value) (objName : option string)
    (e : Encoding) :
  keyType ≠ VUndefined →
  parsePrivateKeyEncoding enc keyType objName = Ok e →
  (∃ t, enc_type e = Some t ∧ t ≠ kKeyEncodingSPKI)
  ∧ (is_nullish (enc_cipher e) = true → enc_passphrase e = VUndefined)
  ∧ (is_nullish (enc_cipher e) = false →
     (∃ c, enc_cipher e = VString c)
     ∧ (∃ kind bytes, enc_passphrase e = VBuffer kind bytes)
     ∧ ¬ (enc_format e = kKeyFormatDER
          ∧ (enc_type e = Some kKeyEncodingPKCS1 ∨ enc_type e = Some kKeyEncodingSEC1))).
Proof.
  intros Hk. apply is_undefined_false in Hk.
  unfold parsePrivateKeyEncoding, parseKeyEncoding.
  destruct (is_null enc || _); [discriminate|].
  destruct (parseKeyFormatAndType enc keyType (VBool false) objName) as [ft|] eqn:Eft;
    cbn [bind]; [|discriminate].
  rewrite Hk. cbn [is_bool Bool.eqb negb andb orb].
  destruct (Get enc "cipher") as [cipher|]; cbn [bind]; [|discriminate].
  destruct (Get enc "passphrase") as [passphrase|]; cbn [bind]; [|discriminate].
  destruct (Get enc "encoding") as [encoding|]; cbn [bind]; [|discriminate].
  assert (∃ t, ft_type ft = Some t ∧ t ≠ kKeyEncodingSPKI) as Ht.
  { unfold parseKeyFormatAndType in Eft.
    destruct (Get enc "format") as [f|]; simpl in Eft; [|discriminate].
    destruct (Get enc "type") as [ty|]; simpl in Eft; [|discriminate].
    destruct (parseKeyFormat f _ _) as [fmt|]; simpl in Eft; [|discriminate].
    destruct (parseKeyType ty _ _ _ _) as [t|] eqn:Et; simpl in Eft; [|discriminate].
    injection Eft as <-. simpl. destruct t as [t|].
    - exists t. split; [done|]. intros ->.
      destruct (parseKeyType_inv _ _ _ _ _ _ Et) as (_ & Hs & _).
      by specialize (Hs eq_refl).
    - apply parseKeyType_omitted in Et as [_ Hr]. rewrite Hk in Hr. discriminate. }
  destruct (is_nullish cipher) eqn:En; cbn [negb].
  - destruct (is_undefined passphrase) eqn:Eu; cbn [negb bind andb orb]; [|discriminate].
    rewrite Eu; cbn [negb bind].
    intros [= <-]; simpl. split; [exact Ht|]. split.
    + intros _. by apply is_undefined_true.
    + rewrite En. discriminate.
  - destruct (bool_decide (typeof cipher = "string")) eqn:Es; cbn [negb bind];
      [|discriminate].
    assert (∃ c, cipher = VString c) as [c ->].
    { apply bool_decide_eq_true in Es. destruct cipher; try discriminate. eauto. }
    destruct Ht as (t & Ht & Hspki). rewrite Ht.
    destruct (bool_decide (ft_format ft = kKeyFormatDER) &&
              (bool_decide (t = kKeyEncodingPKCS1) || bool_decide (t = kKeyEncodingSEC1)))
      eqn:Ed; cbn [bind]; [discriminate|].
    destruct (isStringOrBuffer passphrase) eqn:Ep; cbn [negb bind andb orb];
      [|discriminate].
    assert (is_undefined passphrase = false) as Eu by (by destruct passphrase).
    rewrite Eu; cbn [negb].
    destruct (getArrayBufferOrView passphrase "key.passphrase" encoding) as [pb|] eqn:Eb;
      cbn [bind]; [|discriminate].
    intros [= <-]; simpl. split; [eauto|]. split; [discriminate|].
    intros _. split; [eauto|]. split.
    + by apply getArrayBufferOrView_buffer in Eb.
    + intros [Hf [Hp|Hp]]; injection Hp as ->;
        rewrite Hf in Ed; discriminate.
Qed.

(** X7.  On output, a cipher and a passphrase come together.  When the
    format and the type resolve for a private key, a passphrase given
    without a cipher is an invalid-argument-value error naming the cipher
    option, and a string cipher that the encoding can carry, given without
    a passphrase that is a string or a buffer, is an invalid-argument-value
    error naming the passphrase option. *)
Theorem export_cipher_needs_passphrase (cls : Class) (props : list (PropKey * value))
    (keyType : value) (objName : option string) (ft : FormatAndType) :
  let enc := VObject cls props in
  let cipher := own (PStr "cipher") props in
  let passphrase := own (PStr "passphrase") props in
  keyType ≠ VUndefined →
  parseKeyFormatAndType enc keyType (VBool false) objName = Ok ft →
  (is_nullish cipher = true → passphrase ≠ VUndefined →
   parsePrivateKeyEncoding enc keyType objName
   = Throw (ERR_INVALID_ARG_VALUE (option_ "cipher" objName) cipher))
  ∧ (typeof cipher = "string" →
     ¬ (ft_format ft = kKeyFormatDER
        ∧ (ft_type ft = Some kKeyEncodingPKCS1 ∨ ft_type ft = Some kKeyEncodingSEC1)) →
     isStringOrBuffer passphrase = false →
     parsePrivateKeyEncoding enc keyType objName
     = Throw (ERR_INVALID_ARG_VALUE (option_ "passphrase" objName) passphrase)).
Proof.
  intros enc cipher passphrase Hk Eft. apply is_undefined_false in Hk.
  unfold parsePrivateKeyEncoding, parseKeyEncoding. subst enc.
  cbn [is_null typeof orb]. rewrite bool_decide_eq_true_2 by done. cbn [negb].
  rewrite Eft. cbn [bind]. rewrite Hk. cbn [is_bool Bool.eqb negb andb orb].
  rewrite !Get_own by done. fold cipher passphrase. cbn [bind].
  split.
  - intros Hn Hp. apply is_undefined_false in Hp. rewrite Hn, Hp. done.
  - intros Hs Hd Hp.
    assert (is_nullish cipher = false) as -> by (by destruct cipher).
    rewrite (bool_decide_eq_true_2 _ Hs). cbn [negb]. rewrite Hp.
    destruct (ft_type ft) as [t|]; [|done].
    destruct (bool_decide (ft_format ft = kKeyFormatDER) &&
              (bool_decide (t = kKeyEncodingPKCS1) || bool_decide (t = kKeyEncodingSEC1)))
      eqn:Ed; [|done].
    exfalso. apply Hd.
    apply andb_true_iff in Ed as [Ef Et]. apply bool_decide_eq_true in Ef.
    split; [done|]. apply orb_true_iff in Et as [Et|Et];
      apply bool_decide_eq_true in Et as ->; eauto.
Qed.

(** X8.  On input (no key type given) the cipher option is not examined:
    outside the public context, replacing the cipher of the options by any
    value, a string or not, changes neither whether the negotiation
    succeeds nor its error, and the value is handed through as it is. *)
Theorem input_cipher_ignored (cls : Class) (props : list (PropKey * value))
    (isPublic cipher : value) (objName : option string) :
  is_bool isPublic true = false →
  parseKeyEncoding (VObject cls (set_prop (PStr "cipher") cipher props))
    VUndefined isPublic objName
  = match parseKeyEncoding (VObject cls props) VUndefined isPublic objName with
    | Ok e => Ok (mkEncoding (enc_format e) (enc_type e) cipher (enc_passphrase e))
    | Throw err => Throw err
    end.
Proof.
  intros Hp.
  assert (Get (VObject cls (set_prop (PStr "cipher") cipher props)) "cipher" = Ok cipher)
    as Gc.
  { rewrite Get_own by done. rewrite own_set_prop. by destruct (decide _). }
  pose proof (Get_own cls props "cipher" ltac:(done)) as Gc0.
  pose proof (Get_own cls props "passphrase" ltac:(done)) as Gp.
  pose proof (Get_own cls props "encoding" ltac:(done)) as Ge.
  pose proof (Get_own cls props "format" ltac:(done)) as Gf.
  unfold parseKeyEncoding, parseKeyFormatAndType.
  cbn [is_null typeof orb]. rewrite bool_decide_eq_true_2 by done. cbn [negb].
  rewrite !(Get_set_prop_other _ _ "format" "cipher") by done.
  rewrite Gf. cbn [bind].
  rewrite !(Get_set_prop_other _ _ "type" "cipher") by done.
  destruct (Get (VObject cls props) "type") as [ty|]; cbn [bind]; [|done].
  destruct (parseKeyFormat _ _ _) as [fmt|]; cbn [bind]; [|done].
  destruct (parseKeyType ty _ _ _ _) as [t|]; cbn [bind]; [|done].
  rewrite Hp. cbn [negb].
  rewrite Gc, Gc0. cbn [bind].
  rewrite !(Get_set_prop_other _ _ "passphrase" "cipher") by done.
  rewrite Gp. cbn [bind].
  rewrite !(Get_set_prop_other _ _ "encoding" "cipher") by done.
  rewrite Ge. cbn [bind is_undefined negb andb orb ft_format ft_type].
  destruct (is_undefined (own (PStr "passphrase") props)) eqn:Eu; simpl;
    rewrite ?Eu; simpl; [done|].
  destruct (isStringOrBuffer (own (PStr "passphrase") props)); simpl;
    rewrite ?Eu; simpl; [|done].
  by destruct (getArrayBufferOrView _ _ _).
Qed.

End WithNative.

#[local] Existing Instance sample_native.

Lemma format_rejected_witness :
  let formatStr := own (PStr "format") [(PStr "type", VString "spki")] in
  parseKeyEncoding (VObject ClsObject [(PStr "type", VString "spki")])
    (VString "rsa") (VBool true) (Some "publicKeyEncoding")
  = Throw (ERR_INVALID_ARG_VALUE "options.publicKeyEncoding.format" formatStr).
Proof.
  apply (format_rejected ClsObject [(PStr "type", VString "spki")]
           (VString "rsa") (VBool true) (Some "publicKeyEncoding")).
  - discriminate.
  - discriminate.
  - discriminate.
  - reflexivity.
Defined.

Lemma public_export_encoding_witness :
  enc_cipher (mkEncoding kKeyFormatDER (Some kKeyEncodingSPKI) VUndefined VUndefined)
  = VUndefined
  ∧ enc_passphrase (mkEncoding kKeyFormatDER (Some kKeyEncodingSPKI) VUndefined VUndefined)
    = VUndefined
  ∧ (enc_type (mkEncoding kKeyFormatDER (Some kKeyEncodingSPKI) VUndefined VUndefined)
     = Some kKeyEncodingSPKI
     ∨ enc_type (mkEncoding kKeyFormatDER (Some kKeyEncodingSPKI) VUndefined VUndefined)
       = Some kKeyEncodingPKCS1 ∧ VString "ec" = VString "rsa").
Proof.
  apply (public_export_encoding
           (VObject ClsObject
              [(PStr "format", VString "der"); (PStr "type", VString "spki");
               (PStr "cipher", VString "aes-256-cbc");
               (PStr "passphrase", VString "secret")])
           (VString "ec") None).
  - reflexivity.
  - reflexivity.
Defined.

Lemma private_export_encoding_witness :
  let e := mkEncoding kKeyFormatPEM (Some kKeyEncodingPKCS8) (VString "aes-256-cbc")
             (VBuffer ArrayBufferView (list_byte_of_string "pw")) in
  (∃ t, enc_type e = Some t ∧ t ≠ kKeyEncodingSPKI)
  ∧ (is_nullish (enc_cipher e) = true → enc_passphrase e = VUndefined)
  ∧ (is_nullish (enc_cipher e) = false →
     (∃ c, enc_cipher e = VString c)
     ∧ (∃ kind bytes, enc_passphrase e = VBuffer kind bytes)
     ∧ ¬ (enc_format e = kKeyFormatDER
          ∧ (enc_type e = Some kKeyEncodingPKCS1 ∨ enc_type e = Some kKeyEncodingSEC1))).
Proof.
  apply (private_export_encoding
           (VObject ClsObject
              [(PStr "format", VString "pem"); (PStr "type", VString "pkcs8");
               (PStr "cipher", VString "aes-256-cbc"); (PStr "passphrase", VString "pw")])
           (VString "rsa") None).
  - discriminate.
  - reflexivity.
Defined.

Lemma export_cipher_needs_passphrase_witness :
  let props := [(PStr "format", VString "pem"); (PStr "type", VString "pkcs8");
                (PStr "passphrase", VString "pw")] in
  let props' := [(PStr "format", VString "pem"); (PStr "type", VString "pkcs8");
                 (PStr "cipher", VString "aes-256-cbc")] in
  parsePrivateKeyEncoding (VObject ClsObject props) (VString "rsa") None
  = Throw (ERR_INVALID_ARG_VALUE "options.cipher" VUndefined)
  ∧ parsePrivateKeyEncoding (VObject ClsObject props') (VString "rsa") None
    = Throw (ERR_INVALID_ARG_VALUE "options.passphrase" VUndefined).
Proof.
  intros props props'. split.
  - apply (export_cipher_needs_passphrase ClsObject props (VString "rsa") None
             (mkFormatAndType kKeyFormatPEM (Some kKeyEncodingPKCS8)));
      [discriminate | reflexivity | reflexivity | discriminate].
  - apply (export_cipher_needs_passphrase ClsObject props' (VString "rsa") None
             (mkFormatAndType kKeyFormatPEM (Some kKeyEncodingPKCS8)));
      [discriminate | reflexivity | reflexivity | | reflexivity].
    intros [Hf _]. discriminate Hf.
Defined.

Lemma input_cipher_ignored_witness :
  parseKeyEncoding
    (VObject ClsObject (set_prop (PStr "cipher") (VNumber 42) [(PStr "format", VString "pem")]))
    VUndefined (VBool false) None
  = match parseKeyEncoding (VObject ClsObject [(PStr "format", VString "pem")])
            VUndefined (VBool false) None with
    | Ok e => Ok (mkEncoding (enc_format e) (enc_type e) (VNumber 42) (enc_passphrase e))
    | Throw err => Throw err
    end.
Proof.
  apply (input_cipher_ignored ClsObject [(PStr "format", VString "pem")]
           (VBool false) (VNumber 42) None).
  reflexivity.
Defined.

End NegotiatorProps.

(** ** Further properties of the key material preparer and the factories *)

Module PreparerProps.
Import Keys KeysProps NegotiatorProps.

Lemma constructed_key_object (target : KeyObjectTarget) (type handle o : value) :
  KeyObject_constructor target type handle = Ok o →
  o = VObject (target_class target) [(PSym kKeyType, type); (PSym kHandle, handle)]
  ∧ valid_category type = true.
Proof.
  rewrite KeyObject_constructor_eq.
  destruct (valid_category type); simpl; [|discriminate].
  destruct (instanceof_KeyObjectHandle handle); simpl; [|discriminate].
  by intros [= <-].
Qed.

Lemma valid_category_string (type : value) :
  valid_category type = true → ∃ s, type = VString s.
Proof. destruct type; try discriminate. eauto. Qed.

Section WithNative.
Context `{Native}.

(** X9.  A Key Object by context.  An operation that consumes a private
    key, and the creation of a public key, take the handle of a private Key
    Object and refuse a public or a secret one with a
    key-object-type-mismatch error that carries the object's category and
    expects [private]; an operation that consumes a public or a private key
    takes the handle of either and refuses a secret Key Object, expecting
    [private or public].  The handle comes back alone, without format or
    type. *)
Theorem key_object_by_context (target : KeyObjectTarget) (type handle o : value) :
  KeyObject_constructor target type handle = Ok o →
  preparePrivateKey o
  = (if is_string type "private" then Ok (only_data handle)
     else Throw (ERR_CRYPTO_INVALID_KEY_OBJECT_TYPE type "private"))
  ∧ prepareAsymmetricKey o kCreatePublic
    = (if is_string type "private" then Ok (only_data handle)
       else Throw (ERR_CRYPTO_INVALID_KEY_OBJECT_TYPE type "private"))
  ∧ preparePublicOrPrivateKey o
    = (if is_string type "secret"
       then Throw (ERR_CRYPTO_INVALID_KEY_OBJECT_TYPE type "private or public")
       else Ok (only_data handle))
  ∧ (is_string type "private" = false →
     createPublicKey o = Throw (ERR_CRYPTO_INVALID_KEY_OBJECT_TYPE type "private")).
Proof.
  intros Ho. apply constructed_key_object in Ho as [-> Hv].
  destruct (valid_category_string _ Hv) as [s ->].
  unfold valid_category in Hv. simpl in Hv.
  assert (isKeyObject (VObject (target_class target)
            [(PSym kKeyType, VString s); (PSym kHandle, handle)]) = true) as Hk
    by (by destruct target).
  assert (Get (VObject (target_class target)
            [(PSym kKeyType, VString s); (PSym kHandle, handle)]) "type" = Ok (VString s))
    as Hg by (by destruct target).
  unfold preparePrivateKey, preparePublicOrPrivateKey, createPublicKey,
    prepareAsymmetricKey, getKeyObjectHandle.
  rewrite Hk, Hg. simpl.
  repeat case_bool_decide; subst; simpl; try done.
  all: repeat split; try done; discriminate.
Qed.

(** X10.  The [key] field of an options object can hold a Key Object or a
    Crypto Key: an options object that is not itself one of them is then
    prepared exactly as the key it holds, in every context, and its other
    options are not read. *)
Theorem key_field_bypass (k opts : value) (ctx : Ctx) :
  isKeyObject k = true ∨ isCryptoKey k = true →
  isKeyObject opts = false → isCryptoKey opts = false →
  Get opts "key" = Ok k →
  prepareAsymmetricKey opts ctx = prepareAsymmetricKey k ctx.
Proof.
  intros Hk Ho1 Ho2 Hget.
  assert (∃ cls props, opts = VObject cls props) as (cls & props & ->).
  { destruct opts; simpl in Hget; try done; eauto;
      injection Hget as <-; by destruct Hk. }
  unfold prepareAsymmetricKey. rewrite Ho1, Ho2, Hget.
  rewrite Get_own by done. simpl.
  destruct (isKeyObject k) eqn:Hko; [done|].
  destruct Hk as [|Hck]; [done|]. by rewrite Hck.
Qed.

(** X11.  A Crypto Key around a Key Object is prepared exactly as that Key
    Object, as an asymmetric key in every context and as a secret key. *)
Theorem crypto_key_prepared_as_key_object
    (keyObject algorithm keyUsages extractable encoding : value) (ctx : Ctx) :
  isKeyObject keyObject = true →
  let k := InternalCryptoKey_constructor keyObject algorithm keyUsages extractable in
  prepareAsymmetricKey k ctx = prepareAsymmetricKey keyObject ctx
  ∧ prepareSecretKey k encoding false = prepareSecretKey keyObject encoding false.
Proof.
  intros Hko k. subst k.
  destruct keyObject as [| | | | | | | | |cls props]; try discriminate.
  unfold prepareAsymmetricKey, prepareSecretKey. rewrite Hko.
  split; simpl.
  - by destruct (getKeyObjectHandle _ _).
  - simpl in Hko. rewrite Hko. simpl. done.
Qed.

(** X12.  Raw key material without options, and the same material as the
    only option of a plain options object, are prepared alike: as PEM,
    without type, cipher or passphrase. *)
Theorem raw_material_defaults (props : list (PropKey * value)) (ctx : Ctx) :
  let data := own (PStr "key") props in
  isStringOrBuffer data = true →
  isCryptoKey (VObject ClsObject props) = false →
  own (PStr "format") props = VUndefined → own (PStr "type") props = VUndefined →
  own (PStr "cipher") props = VUndefined → own (PStr "passphrase") props = VUndefined →
  own (PStr "encoding") props = VUndefined →
  prepareAsymmetricKey (VObject ClsObject props) ctx = prepareAsymmetricKey data ctx
  ∧ prepareAsymmetricKey data ctx
    = bind (getArrayBufferOrView data "key" VUndefined)
        (λ bytes, Ok (mkPreparedKey (Some kKeyFormatPEM) None bytes VUndefined VUndefined)).
Proof.
  intros data Hd Hc Hf Ht Hci Hp He.
  assert (isKeyObject data = false ∧ isCryptoKey data = false) as [Hk1 Hk2].
  { unfold isStringOrBuffer in Hd. by destruct data as [| | | | | |[|]| | |]. }
  assert (prepareAsymmetricKey data ctx
          = bind (getArrayBufferOrView data "key" VUndefined)
              (λ bytes, Ok (mkPreparedKey (Some kKeyFormatPEM) None bytes
                              VUndefined VUndefined))) as Hdirect.
  { unfold prepareAsymmetricKey. by rewrite Hk1, Hk2, Hd. }
  split; [|exact Hdirect]. rewrite Hdirect.
  unfold prepareAsymmetricKey. rewrite Hc. simpl isKeyObject. cbn iota.
  assert (isStringOrBuffer (VObject ClsObject props) = false) as -> by done.
  rewrite bool_decide_eq_true_2 by done.
  rewrite !Get_own by done. fold data. rewrite He. cbn [bind].
  rewrite Hk1, Hk2, Hd. cbn [negb].
  destruct (getArrayBufferOrView data "key" VUndefined) as [bytes|]; cbn [bind]; [|done].
  unfold parseKeyEncoding, parseKeyFormatAndType. simpl.
  rewrite Hf, Ht, Hci, Hp, He. simpl.
  by repeat case_bool_decide.
Qed.

(** X13.  A value that is neither an object nor a string is not key
    material: the preparer refuses it with an invalid-argument-type error
    that carries the value and lists the acceptable kinds, with [KeyObject]
    and [CryptoKey] among them except in the create-private-key context;
    a [key] field of an options object that is no string, buffer, Key
    Object or Crypto Key is refused in the same way under the name
    [key.key]. *)
Theorem not_key_material (key : value) (props : list (PropKey * value)) (ctx : Ctx) :
  let acceptable :=
    (["ArrayBuffer"; "Buffer"; "TypedArray"; "DataView"; "string"]
     ++ (if bool_decide (ctx = kCreatePrivate) then [] else ["KeyObject"; "CryptoKey"]))%list
  in
  (typeof key ≠ "object" → typeof key ≠ "string" →
   prepareAsymmetricKey key ctx = Throw (ERR_INVALID_ARG_TYPE "key" acceptable key))
  ∧ (isCryptoKey (VObject ClsObject props) = false →
     own (PStr "key") props = key →
     isKeyObject key = false → isCryptoKey key = false → isStringOrBuffer key = false →
     prepareAsymmetricKey (VObject ClsObject props) ctx
     = Throw (ERR_INVALID_ARG_TYPE "key.key" acceptable key)).
Proof.
  intros acceptable. subst acceptable. split.
  - intros Ho Hs. unfold prepareAsymmetricKey.
    destruct key; try done; simpl; by destruct ctx.
  - intros Hc <- Hk1 Hk2 Hsb. unfold prepareAsymmetricKey.
    rewrite Hc. simpl isKeyObject. cbn iota.
    assert (isStringOrBuffer (VObject ClsObject props) = false) as -> by done.
    rewrite bool_decide_eq_true_2 by done.
    rewrite !Get_own by done. cbn [bind]. rewrite Hk1, Hk2, Hsb. simpl.
    by destruct ctx.
Qed.

(** X14.  A Key Object as secret key material.  Where Key Objects are
    accepted, a secret Key Object gives its handle and a public or private
    one is refused with a key-object-type-mismatch error that carries its
    category and expects [secret]; where only buffers are accepted, as in
    [createSecretKey], every Key Object is refused with an
    invalid-argument-type error that lists the four buffer kinds. *)
Theorem key_object_as_secret (target : KeyObjectTarget) (type handle o encoding : value) :
  KeyObject_constructor target type handle = Ok o →
  prepareSecretKey o encoding false
  = (if is_string type "secret" then Ok handle
     else Throw (ERR_CRYPTO_INVALID_KEY_OBJECT_TYPE type "secret"))
  ∧ prepareSecretKey o encoding true
    = Throw (ERR_INVALID_ARG_TYPE "key"
               ["ArrayBuffer"; "Buffer"; "TypedArray"; "DataView"] o)
  ∧ createSecretKey o encoding
    = Throw (ERR_INVALID_ARG_TYPE "key"
               ["ArrayBuffer"; "Buffer"; "TypedArray"; "DataView"] o).
Proof.
  intros Ho. apply constructed_key_object in Ho as [-> Hv].
  destruct (valid_category_string _ Hv) as [s ->].
  unfold createSecretKey, prepareSecretKey.
  destruct target; simpl; by case_bool_decide.
Qed.

(** X15.  What [createSecretKey] makes of its argument.  A value that is
    neither a string nor a buffer is refused with an invalid-argument-type
    error listing the four buffer kinds.  A buffer without bytes is an
    out-of-range error on [key.byteLength].  A string is accepted although
    the error lists buffers only: the key is its encoding, the encoding's
    error if it has one, and the out-of-range error if it is empty. *)
Theorem createSecretKey_by_argument (key encoding : value) :
  (typeof key ≠ "string" → isArrayBufferView key = false → isAnyArrayBuffer key = false →
   createSecretKey key encoding
   = Throw (ERR_INVALID_ARG_TYPE "key"
              ["ArrayBuffer"; "Buffer"; "TypedArray"; "DataView"] key))
  ∧ (∀ kind, key = VBuffer kind [] →
     createSecretKey key encoding
     = Throw (ERR_OUT_OF_RANGE "key.byteLength" "> 0" (VNumber 0)))
  ∧ (∀ s, key = VString s →
     createSecretKey key encoding
     = match BufferFrom s encoding with
       | Throw e => Throw e
       | Ok [] => Throw (ERR_OUT_OF_RANGE "key.byteLength" "> 0" (VNumber 0))
       | Ok bytes =>
           Ok (VObject ClsSecretKeyObject
                 [(PSym kKeyType, VString "secret");
                  (PSym kHandle, VHandle (mkHandle (Some kKeyTypeSecret) bytes))])
       end).
Proof.
  unfold createSecretKey, prepareSecretKey. cbn [negb andb].
  split; [|split].
  - intros Hs Hv Ha. rewrite Hv, Ha. rewrite (bool_decide_eq_false_2 _ Hs). done.
  - intros kind ->. by destruct kind.
  - intros s ->. simpl.
    destruct (BufferFrom s encoding) as [[|b bytes]|]; done.
Qed.

(** X16.  A secret Key Object made by [createSecretKey] from the non-empty
    bytes [b] is accepted where a secret key is consumed, giving a handle
    of a secret key that holds [b], and refused where an asymmetric key is
    consumed or a public key created. *)
Theorem created_secret_key_consumed (kind : BufferKind) (b : list byte)
    (encoding encoding' : value) :
  b ≠ [] →
  ∃ k, createSecretKey (VBuffer kind b) encoding = Ok k
       ∧ prepareSecretKey k encoding' false
         = Ok (VHandle (mkHandle (Some kKeyTypeSecret) b))
       ∧ preparePublicOrPrivateKey k
         = Throw (ERR_CRYPTO_INVALID_KEY_OBJECT_TYPE (VString "secret") "private or public")
       ∧ preparePrivateKey k
         = Throw (ERR_CRYPTO_INVALID_KEY_OBJECT_TYPE (VString "secret") "private")
       ∧ createPublicKey k
         = Throw (ERR_CRYPTO_INVALID_KEY_OBJECT_TYPE (VString "secret") "private").
Proof.
  intros Hb. destruct b as [|x b]; [done|].
  unfold createSecretKey, prepareSecretKey.
  destruct kind; simpl; eexists; repeat split.
Qed.

(** X17.  [KeyObject.from] is the inverse of wrapping: it gives back the
    Key Object a Crypto Key was built around, and it refuses a Key Object
    itself with an invalid-argument-type error that expects a
    [CryptoKey]. *)
Theorem KeyObject_from_unwraps (target : KeyObjectTarget)
    (type handle o algorithm keyUsages extractable : value) :
  KeyObject_constructor target type handle = Ok o →
  KeyObject_from (InternalCryptoKey_constructor o algorithm keyUsages extractable) = Ok o
  ∧ KeyObject_from o = Throw (ERR_INVALID_ARG_TYPE "key" ["CryptoKey"] o).
Proof.
  intros Ho. apply constructed_key_object in Ho as [-> _].
  split; reflexivity.
Qed.




(** X23.  [kDeserialize] sets exactly the four properties of a Crypto Key:
    on any instance, whatever it held, the accessors afterwards read the
    snapshot's key object, algorithm, extractable flag and usages, and
    every other property of the instance is as before. *)
Theorem kDeserialize_sets_four (cls : Class) (props : list (PropKey * value))
    (data : CloneData) (k : PropKey) :
  let this := kDeserialize (VObject cls props) data in
  GetSym this kKeyObject = Ok (cd_keyObject data)
  ∧ CryptoKey_type this = Get (cd_keyObject data) "type"
  ∧ CryptoKey_algorithm this = Ok (cd_algorithm data)
  ∧ CryptoKey_extractable this = Ok (cd_extractable data)
  ∧ CryptoKey_usages this = ArrayFrom (cd_usages data)
  ∧ isCryptoKey this = negb (is_undefined (cd_keyObject data))
  ∧ (k ≠ PSym kKeyObject → k ≠ PSym kAlgorithm → k ≠ PSym kKeyUsages →
     k ≠ PSym kExtractable →
     ∃ props', this = VObject cls props' ∧ own k props' = own k props).
Proof.
  intros this. subst this. unfold kDeserialize, SetProp.
  set (props' := set_prop _ _ (set_prop _ _ (set_prop _ _ (set_prop _ _ props)))).
  assert (∀ k', own k' props'
                = if decide (k' = PSym kExtractable) then cd_extractable data
                  else if decide (k' = PSym kKeyUsages) then cd_usages data
                  else if decide (k' = PSym kAlgorithm) then cd_algorithm data
                  else if decide (k' = PSym kKeyObject) then cd_keyObject data
                  else own k' props) as Hown.
  { intros k'. subst props'. by rewrite !own_set_prop. }
  unfold CryptoKey_type, CryptoKey_algorithm, CryptoKey_extractable, CryptoKey_usages,
    isCryptoKey, GetSym.
  cbn [is_nullish negb andb bind]. rewrite !Hown.
  split; [reflexivity|]. split; [reflexivity|]. split; [reflexivity|].
  split; [reflexivity|]. split; [reflexivity|]. split; [reflexivity|].
  intros H1 H2 H3 H4. exists props'. split; [reflexivity|].
  rewrite Hown. by repeat (destruct (decide _); [done|]).
Qed.

End WithNative.

#[local] Existing Instance sample_native.

Lemma key_object_by_context_witness :
  preparePrivateKey sample_secret_key
  = (if is_string (VString "secret") "private" then Ok (only_data (VHandle secret_handle))
     else Throw (ERR_CRYPTO_INVALID_KEY_OBJECT_TYPE (VString "secret") "private"))
  ∧ prepareAsymmetricKey sample_secret_key kCreatePublic
    = (if is_string (VString "secret") "private" then Ok (only_data (VHandle secret_handle))
       else Throw (ERR_CRYPTO_INVALID_KEY_OBJECT_TYPE (VString "secret") "private"))
  ∧ preparePublicOrPrivateKey sample_secret_key
    = (if is_string (VString "secret") "secret"
       then Throw (ERR_CRYPTO_INVALID_KEY_OBJECT_TYPE (VString "secret") "private or public")
       else Ok (only_data (VHandle secret_handle)))
  ∧ (is_string (VString "secret") "private" = false →
     createPublicKey sample_secret_key
     = Throw (ERR_CRYPTO_INVALID_KEY_OBJECT_TYPE (VString "secret") "private")).
Proof.
  apply (key_object_by_context NewSecretKeyObject (VString "secret")
           (VHandle secret_handle) sample_secret_key).
  reflexivity.
Defined.

Lemma key_field_bypass_witness :
  prepareAsymmetricKey
    (VObject ClsObject [(PStr "key", sample_secret_key); (PStr "padding", VNumber 1)])
    kConsumePublic
  = prepareAsymmetricKey sample_secret_key kConsumePublic.
Proof.
  apply (key_field_bypass sample_secret_key
           (VObject ClsObject [(PStr "key", sample_secret_key); (PStr "padding", VNumber 1)])
           kConsumePublic).
  - left. reflexivity.
  - reflexivity.
  - reflexivity.
  - reflexivity.
Defined.

Lemma crypto_key_prepared_as_key_object_witness :
  let k := InternalCryptoKey_constructor sample_secret_key sample_algorithm sample_usages
             (VBool true) in
  prepareAsymmetricKey k kConsumePrivate = prepareAsymmetricKey sample_secret_key kConsumePrivate
  ∧ prepareSecretKey k VUndefined false = prepareSecretKey sample_secret_key VUndefined false.
Proof.
  apply (crypto_key_prepared_as_key_object sample_secret_key sample_algorithm sample_usages
           (VBool true) VUndefined kConsumePrivate).
  reflexivity.
Defined.

Lemma raw_material_defaults_witness :
  let props := [(PStr "key", VString "-----BEGIN PUBLIC KEY-----")] in
  let data := own (PStr "key") props in
  prepareAsymmetricKey (VObject ClsObject props) kCreatePublic
  = prepareAsymmetricKey data kCreatePublic
  ∧ prepareAsymmetricKey data kCreatePublic
    = bind (getArrayBufferOrView data "key" VUndefined)
        (λ bytes, Ok (mkPreparedKey (Some kKeyFormatPEM) None bytes VUndefined VUndefined)).
Proof.
  apply (raw_material_defaults [(PStr "key", VString "-----BEGIN PUBLIC KEY-----")]
           kCreatePublic); reflexivity.
Defined.

Lemma not_key_material_witness :
  let acceptable :=
    (["ArrayBuffer"; "Buffer"; "TypedArray"; "DataView"; "string"]
     ++ (if bool_decide (kCreatePrivate = kCreatePrivate) then []
         else ["KeyObject"; "CryptoKey"]))%list in
  prepareAsymmetricKey (VNumber 7) kCreatePrivate
  = Throw (ERR_INVALID_ARG_TYPE "key" acceptable (VNumber 7))
  ∧ prepareAsymmetricKey (VObject ClsObject [(PStr "key", VNumber 7)]) kCreatePrivate
    = Throw (ERR_INVALID_ARG_TYPE "key.key" acceptable (VNumber 7)).
Proof.
  intros acceptable.
  destruct (not_key_material (VNumber 7) [(PStr "key", VNumber 7)] kCreatePrivate)
    as [Hdirect Hfield].
  split.
  - apply Hdirect; discriminate.
  - apply Hfield; reflexivity.
Defined.

Lemma key_object_as_secret_witness :
  prepareSecretKey sample_secret_key VUndefined false
  = (if is_string (VString "secret") "secret" then Ok (VHandle secret_handle)
     else Throw (ERR_CRYPTO_INVALID_KEY_OBJECT_TYPE (VString "secret") "secret"))
  ∧ prepareSecretKey sample_secret_key VUndefined true
    = Throw (ERR_INVALID_ARG_TYPE "key"
               ["ArrayBuffer"; "Buffer"; "TypedArray"; "DataView"] sample_secret_key)
  ∧ createSecretKey sample_secret_key VUndefined
    = Throw (ERR_INVALID_ARG_TYPE "key"
               ["ArrayBuffer"; "Buffer"; "TypedArray"; "DataView"] sample_secret_key).
Proof.
  apply (key_object_as_secret NewSecretKeyObject (VString "secret")
           (VHandle secret_handle) sample_secret_key VUndefined).
  reflexivity.
Defined.

Lemma created_secret_key_consumed_witness :
  ∃ k, createSecretKey (VBuffer AnyArrayBuffer [Init.Byte.x2a]) VUndefined = Ok k
       ∧ prepareSecretKey k (VString "hex") false
         = Ok (VHandle (mkHandle (Some kKeyTypeSecret) [Init.Byte.x2a]))
       ∧ preparePublicOrPrivateKey k
         = Throw (ERR_CRYPTO_INVALID_KEY_OBJECT_TYPE (VString "secret") "private or public")
       ∧ preparePrivateKey k
         = Throw (ERR_CRYPTO_INVALID_KEY_OBJECT_TYPE (VString "secret") "private")
       ∧ createPublicKey k
         = Throw (ERR_CRYPTO_INVALID_KEY_OBJECT_TYPE (VString "secret") "private").
Proof.
  apply (created_secret_key_consumed AnyArrayBuffer [Init.Byte.x2a] VUndefined
           (VString "hex")).
  discriminate.
Defined.

Lemma KeyObject_from_unwraps_witness :
  KeyObject_from (InternalCryptoKey_constructor sample_secret_key sample_algorithm
                    sample_usages (VBool true))
  = Ok sample_secret_key
  ∧ KeyObject_from sample_secret_key
    = Throw (ERR_INVALID_ARG_TYPE "key" ["CryptoKey"] sample_secret_key).
Proof.
  apply (KeyObject_from_unwraps NewSecretKeyObject (VString "secret")
           (VHandle secret_handle) sample_secret_key sample_algorithm sample_usages
           (VBool true)).
  reflexivity.
Defined.


End PreparerProps.

(** ** Further properties of the abort controller *)

Module AbortStoreProps.
Import AbortController AbortProps.

Lemma abortSignal_alter (s : loc) (h : heap) :
  abortSignal s h = alter aborted_object s h.
Proof.
  destruct (h !! s) as [o|] eqn:Hs.
  - destruct (aborted o) eqn:Ha.
    + rewrite abortSignal_aborted
        by (unfold signal_aborted; rewrite Hs; simpl; by rewrite Ha).
      apply map_eq. intros l. destruct (decide (l = s)) as [->|Hne].
      * rewrite lookup_alter_eq, Hs. simpl. unfold aborted_object. by rewrite Ha.
      * by rewrite lookup_alter_ne.
    + rewrite (abortSignal_first s h o Hs Ha).
      apply map_eq. intros l. destruct (decide (l = s)) as [->|Hne].
      * rewrite lookup_alter_eq, lookup_insert_eq, Hs. simpl.
        unfold aborted_object. by rewrite Ha.
      * by rewrite lookup_alter_ne, lookup_insert_ne.
  - unfold abortSignal. rewrite Hs.
    apply map_eq. intros l. destruct (decide (l = s)) as [->|Hne].
    + by rewrite lookup_alter_eq, Hs.
    + by rewrite lookup_alter_ne.
Qed.

Lemma run_call_consistent (h : heap) (call : Call) :
  (∀ l o, h !! l = Some o → signal_consistent o) →
  ∀ l o, run_call h call !! l = Some o → signal_consistent o.
Proof.
  intros Hinv l o. destruct call as [|c]; simpl.
  - unfold AbortController_constructor, createAbortSignal; simpl.
    destruct (decide (l = fresh (dom h))) as [->|Hne].
    + rewrite lookup_insert_eq. intros [= <-]. split; [done|]. by left.
    + rewrite lookup_insert_ne by done. apply Hinv.
  - unfold abort. rewrite abortSignal_alter.
    destruct (decide (l = kSignal c)) as [->|Hne].
    + rewrite lookup_alter_eq.
      destruct (h !! kSignal c) as [o'|] eqn:Hs; simpl; [|done].
      intros [= <-]. destruct (Hinv _ _ Hs) as [Hp [[Ha Hd]|[Ha Hd]]];
        unfold aborted_object, aborted; rewrite Ha; simpl.
      * split; [done|]. right. by rewrite Hd.
      * split; [done|]. by right.
    + rewrite lookup_alter_ne by done. apply Hinv.
Qed.

(** X19.  In every store a program can reach from the empty one by
    constructing controllers and calling [abort], every object is a signal
    that either is not aborted and has dispatched nothing, or is aborted
    and has dispatched exactly one trusted [abort] event: no signal ever
    dispatches a second event. *)
Theorem reachable_signals_consistent (calls : list Call) (l : loc) (o : EventTarget) :
  run calls ∅ !! l = Some o →
  et_proto o = AbortSignalPrototype
  ∧ (aborted o = false ∧ et_dispatched o = []
     ∨ aborted o = true ∧ et_dispatched o = [mkEvent "abort" true]).
Proof.
  assert (∀ calls h, (∀ l o, h !! l = Some o → signal_consistent o) →
            ∀ l o, run calls h !! l = Some o → signal_consistent o) as Hrun.
  { clear. induction calls as [|call calls IH]; intros h Hinv; simpl; [done|].
    apply IH. by apply run_call_consistent. }
  intros Hl.
  destruct (Hrun calls ∅ ltac:(intros ? ?; by rewrite lookup_empty) l o Hl)
    as [Hp [[Ha Hd]|[Ha Hd]]]; (split; [done|]); unfold aborted; rewrite Ha; eauto.
Qed.

Lemma run_call_aborted (h : heap) (call : Call) (s : loc) (o : EventTarget) :
  h !! s = Some o → aborted o = true → run_call h call !! s = Some o.
Proof.
  intros Hs Ha. destruct call as [|c]; simpl.
  - unfold AbortController_constructor, createAbortSignal; simpl.
    rewrite lookup_insert_ne; [done|].
    intros <-. pose proof (is_fresh (dom h)) as Hf.
    apply Hf, elem_of_dom. eauto.
  - unfold abort. rewrite abortSignal_alter.
    destruct (decide (s = kSignal c)) as [->|Hne].
    + rewrite lookup_alter_eq, Hs. simpl. unfold aborted_object. by rewrite Ha.
    + by rewrite lookup_alter_ne.
Qed.

(** X20.  Aborting is final: once a signal is aborted, no sequence of
    controller constructions and [abort] calls, on its own controller or
    on others, changes the signal: it stays aborted and the events it has
    dispatched stay the same. *)
Theorem aborted_is_final (calls : list Call) (h : heap) (s : loc) :
  signal_aborted h s = Some true →
  run calls h !! s = h !! s
  ∧ signal_aborted (run calls h) s = Some true
  ∧ signal_events (run calls h) s = signal_events h s.
Proof.
  intros Ha.
  assert (run calls h !! s = h !! s) as Heq.
  { unfold signal_aborted in Ha.
    destruct (h !! s) as [o|] eqn:Hs; simpl in Ha; [|discriminate].
    injection Ha as Ha.
    revert h Hs. induction calls as [|call calls IH]; intros h Hs; simpl; [done|].
    apply IH. by apply run_call_aborted. }
  unfold signal_aborted, signal_events in *. by rewrite !Heq.
Qed.

Lemma aborted_is_final_witness :
  let calls := [CallAbort (mkController 1%positive); NewAbortController;
                CallAbort (mkController 2%positive)] in
  run calls two_signals !! 1%positive = two_signals !! 1%positive
  ∧ signal_aborted (run calls two_signals) 1%positive = Some true
  ∧ signal_events (run calls two_signals) 1%positive = signal_events two_signals 1%positive.
Proof.
  apply (aborted_is_final
           [CallAbort (mkController 1%positive); NewAbortController;
            CallAbort (mkController 2%positive)] two_signals 1%positive).
  reflexivity.
Defined.

(** X21.  Two controllers constructed one after the other have different
    signals, and aborting the first leaves the second not aborted and
    without a dispatched event. *)
Theorem controllers_are_independent (h : heap) :
  let c1 := (AbortController_constructor h).1 in
  let h1 := (AbortController_constructor h).2 in
  let c2 := (AbortController_constructor h1).1 in
  let h2 := (AbortController_constructor h1).2 in
  signal c1 ≠ signal c2
  ∧ signal_aborted (abort c1 h2) (signal c1) = Some true
  ∧ signal_aborted (abort c1 h2) (signal c2) = Some false
  ∧ signal_events (abort c1 h2) (signal c2) = [].
Proof.
  unfold AbortController_constructor, createAbortSignal; simpl.
  set (l1 := fresh (dom h)).
  set (o0 := mkEventTarget AbortSignalPrototype (VBool false) []).
  set (h1 := <[l1 := o0]> h).
  set (l2 := fresh (dom h1)).
  assert (l1 ≠ l2) as Hne.
  { intros Heq. pose proof (is_fresh (dom h1)) as Hf. apply Hf.
    fold l2. rewrite <- Heq. apply elem_of_dom. subst h1.
    rewrite lookup_insert_eq. eauto. }
  unfold abort, signal; simpl. rewrite abortSignal_alter.
  unfold signal_aborted, signal_events.
  rewrite lookup_alter_eq, lookup_alter_ne by done.
  rewrite lookup_insert_eq, lookup_insert_ne by done.
  subst h1. rewrite lookup_insert_eq. done.
Qed.

Lemma reachable_signals_consistent_witness :
  let o := mkEventTarget AbortSignalPrototype (VBool true) [mkEvent "abort" true] in
  et_proto o = AbortSignalPrototype
  ∧ (aborted o = false ∧ et_dispatched o = []
     ∨ aborted o = true ∧ et_dispatched o = [mkEvent "abort" true]).
Proof.
  apply (reachable_signals_consistent
           [NewAbortController; CallAbort (mkController 1%positive);
            CallAbort (mkController 1%positive)] 1%positive).
  vm_compute. reflexivity.
Defined.

End AbortStoreProps.
